(** * AmpSignals: the audio engine (audio-engine.js, class AudioEngine)

    A shallow embedding of the control path of the amplifier simulation:
    parameter setters, the drive/bright switches, amp-model selection, the
    distortion-curve synthesis and the synthetic cabinet impulse response;
    and of the callers in ui-controller.js that feed it: knob dragging and
    the level meter.

    Numbers.  A JavaScript number is modelled as a real number: the
    arithmetic of the source ([*], [/], [Math.max], [Math.pow], [Math.tanh])
    is read as exact real arithmetic, and a [Float32Array] as a list of
    reals.  Rounding to binary64 / binary32 is outside this model, and an
    audio parameter reads back the value last written to it.

    Effects.  A method is a function from the engine object to an [outcome]:
    the value returned together with the engine after the call, or the
    engine at the point where a [TypeError] was thrown.  [Math.random] is an
    oracle argument giving the draw of each loop iteration; the platform
    decoder [decodeAudioData] is a parameter of the development. *)

From Stdlib Require Import Reals Lra Lia ZArith List String Bool.
From Stdlib Require Strings.Byte.
Import ListNotations.
Open Scope R_scope.

(** ** Typed arrays *)

(** [new Float32Array(n)]: [n] zeros. *)
Definition Float32Array (n : nat) : list R := repeat 0 n.

(** [a[i] = v] on a typed array: a write past the end is ignored. *)
Fixpoint typed_set (i : nat) (v : R) (a : list R) : list R :=
  match a, i with
  | [], _ => []
  | _ :: t, O => v :: t
  | h :: t, S i' => h :: typed_set i' v t
  end.

(** [a[i]] for an index inside the array. *)
Definition typed_get (i : nat) (a : list R) : R := nth i a 0.

(** ** makeDistortionCurve *)

Definition n_samples : Z := 44100.

(** [const x = i * 2 / n_samples - 1]. *)
Definition curve_x (i : Z) : R := IZR i * 2 / IZR n_samples - 1.

(** The body of the loop: the value stored in [curve[i]] for input [x]. *)
Definition curve_sample (amount x : R) : R :=
  if Rlt_dec amount 1 then
    x * (1 - 0.1 * amount)
  else
    let k := amount * 0.5 in
    tanh (k * x) / tanh k.

Definition makeDistortionCurve (amount : R) : list R :=
  map (fun i => curve_sample amount (curve_x (Z.of_nat i)))
      (seq 0 (Z.to_nat n_samples)).

(** ** The engine object *)

Record AudioContext := { sampleRate : Z }.

Record AudioBuffer := {
  buffer_sampleRate : Z;
  channels : list (list R)
}.

Definition numberOfChannels (b : AudioBuffer) : nat := List.length (channels b).
Definition buffer_length (b : AudioBuffer) : nat :=
  List.length (hd [] (channels b)).

(** The audio parameters and payloads of [this.nodes] that the methods write.
    Filter types, centre frequencies, attack and release times and the
    analyser are set once in [init] and never written again. *)
Record Nodes := {
  gate_threshold : R;
  bright_gain : R;
  compressor_ratio : R;
  compressor_threshold : R;
  preGain_gain : R;
  voice_gain : R;
  voice_Q : R;
  distortion_curve : list R;
  bass_gain : R;
  mid_gain : R;
  treble_gain : R;
  presence_gain : R;
  cab_buffer : option AudioBuffer;
  master_gain : R
}.

Definition set_gate_threshold (v : R) (n : Nodes) : Nodes :=
  {| gate_threshold := v; bright_gain := bright_gain n;
     compressor_ratio := compressor_ratio n;
     compressor_threshold := compressor_threshold n;
     preGain_gain := preGain_gain n; voice_gain := voice_gain n;
     voice_Q := voice_Q n; distortion_curve := distortion_curve n;
     bass_gain := bass_gain n; mid_gain := mid_gain n;
     treble_gain := treble_gain n; presence_gain := presence_gain n;
     cab_buffer := cab_buffer n; master_gain := master_gain n |}.

Definition set_bright_gain (v : R) (n : Nodes) : Nodes :=
  {| gate_threshold := gate_threshold n; bright_gain := v;
     compressor_ratio := compressor_ratio n;
     compressor_threshold := compressor_threshold n;
     preGain_gain := preGain_gain n; voice_gain := voice_gain n;
     voice_Q := voice_Q n; distortion_curve := distortion_curve n;
     bass_gain := bass_gain n; mid_gain := mid_gain n;
     treble_gain := treble_gain n; presence_gain := presence_gain n;
     cab_buffer := cab_buffer n; master_gain := master_gain n |}.

Definition set_compressor (ratio thresh : R) (n : Nodes) : Nodes :=
  {| gate_threshold := gate_threshold n; bright_gain := bright_gain n;
     compressor_ratio := ratio;
     compressor_threshold := thresh;
     preGain_gain := preGain_gain n; voice_gain := voice_gain n;
     voice_Q := voice_Q n; distortion_curve := distortion_curve n;
     bass_gain := bass_gain n; mid_gain := mid_gain n;
     treble_gain := treble_gain n; presence_gain := presence_gain n;
     cab_buffer := cab_buffer n; master_gain := master_gain n |}.

Definition set_preGain_gain (v : R) (n : Nodes) : Nodes :=
  {| gate_threshold := gate_threshold n; bright_gain := bright_gain n;
     compressor_ratio := compressor_ratio n;
     compressor_threshold := compressor_threshold n;
     preGain_gain := v; voice_gain := voice_gain n;
     voice_Q := voice_Q n; distortion_curve := distortion_curve n;
     bass_gain := bass_gain n; mid_gain := mid_gain n;
     treble_gain := treble_gain n; presence_gain := presence_gain n;
     cab_buffer := cab_buffer n; master_gain := master_gain n |}.

Definition set_voice (gain q : R) (n : Nodes) : Nodes :=
  {| gate_threshold := gate_threshold n; bright_gain := bright_gain n;
     compressor_ratio := compressor_ratio n;
     compressor_threshold := compressor_threshold n;
     preGain_gain := preGain_gain n; voice_gain := gain;
     voice_Q := q; distortion_curve := distortion_curve n;
     bass_gain := bass_gain n; mid_gain := mid_gain n;
     treble_gain := treble_gain n; presence_gain := presence_gain n;
     cab_buffer := cab_buffer n; master_gain := master_gain n |}.

Definition set_distortion_curve (c : list R) (n : Nodes) : Nodes :=
  {| gate_threshold := gate_threshold n; bright_gain := bright_gain n;
     compressor_ratio := compressor_ratio n;
     compressor_threshold := compressor_threshold n;
     preGain_gain := preGain_gain n; voice_gain := voice_gain n;
     voice_Q := voice_Q n; distortion_curve := c;
     bass_gain := bass_gain n; mid_gain := mid_gain n;
     treble_gain := treble_gain n; presence_gain := presence_gain n;
     cab_buffer := cab_buffer n; master_gain := master_gain n |}.

Definition set_bass_gain (v : R) (n : Nodes) : Nodes :=
  {| gate_threshold := gate_threshold n; bright_gain := bright_gain n;
     compressor_ratio := compressor_ratio n;
     compressor_threshold := compressor_threshold n;
     preGain_gain := preGain_gain n; voice_gain := voice_gain n;
     voice_Q := voice_Q n; distortion_curve := distortion_curve n;
     bass_gain := v; mid_gain := mid_gain n;
     treble_gain := treble_gain n; presence_gain := presence_gain n;
     cab_buffer := cab_buffer n; master_gain := master_gain n |}.

Definition set_mid_gain (v : R) (n : Nodes) : Nodes :=
  {| gate_threshold := gate_threshold n; bright_gain := bright_gain n;
     compressor_ratio := compressor_ratio n;
     compressor_threshold := compressor_threshold n;
     preGain_gain := preGain_gain n; voice_gain := voice_gain n;
     voice_Q := voice_Q n; distortion_curve := distortion_curve n;
     bass_gain := bass_gain n; mid_gain := v;
     treble_gain := treble_gain n; presence_gain := presence_gain n;
     cab_buffer := cab_buffer n; master_gain := master_gain n |}.

Definition set_treble_gain (v : R) (n : Nodes) : Nodes :=
  {| gate_threshold := gate_threshold n; bright_gain := bright_gain n;
     compressor_ratio := compressor_ratio n;
     compressor_threshold := compressor_threshold n;
     preGain_gain := preGain_gain n; voice_gain := voice_gain n;
     voice_Q := voice_Q n; distortion_curve := distortion_curve n;
     bass_gain := bass_gain n; mid_gain := mid_gain n;
     treble_gain := v; presence_gain := presence_gain n;
     cab_buffer := cab_buffer n; master_gain := master_gain n |}.

Definition set_presence_gain (v : R) (n : Nodes) : Nodes :=
  {| gate_threshold := gate_threshold n; bright_gain := bright_gain n;
     compressor_ratio := compressor_ratio n;
     compressor_threshold := compressor_threshold n;
     preGain_gain := preGain_gain n; voice_gain := voice_gain n;
     voice_Q := voice_Q n; distortion_curve := distortion_curve n;
     bass_gain := bass_gain n; mid_gain := mid_gain n;
     treble_gain := treble_gain n; presence_gain := v;
     cab_buffer := cab_buffer n; master_gain := master_gain n |}.

Definition set_cab_buffer (b : option AudioBuffer) (n : Nodes) : Nodes :=
  {| gate_threshold := gate_threshold n; bright_gain := bright_gain n;
     compressor_ratio := compressor_ratio n;
     compressor_threshold := compressor_threshold n;
     preGain_gain := preGain_gain n; voice_gain := voice_gain n;
     voice_Q := voice_Q n; distortion_curve := distortion_curve n;
     bass_gain := bass_gain n; mid_gain := mid_gain n;
     treble_gain := treble_gain n; presence_gain := presence_gain n;
     cab_buffer := b; master_gain := master_gain n |}.

Definition set_master_gain (v : R) (n : Nodes) : Nodes :=
  {| gate_threshold := gate_threshold n; bright_gain := bright_gain n;
     compressor_ratio := compressor_ratio n;
     compressor_threshold := compressor_threshold n;
     preGain_gain := preGain_gain n; voice_gain := voice_gain n;
     voice_Q := voice_Q n; distortion_curve := distortion_curve n;
     bass_gain := bass_gain n; mid_gain := mid_gain n;
     treble_gain := treble_gain n; presence_gain := presence_gain n;
     cab_buffer := cab_buffer n; master_gain := v |}.

(** The fields of [this].  [nodes = None] is the empty object [{}] of the
    constructor, in which every [this.nodes.x] is [undefined]. *)
Record AudioEngine := {
  ctx : option AudioContext;
  nodes : option Nodes;
  isInitialized : bool;
  currentAmp : string;
  state_bright : bool;
  state_drive : bool
}.

Definition set_ctx (c : option AudioContext) (e : AudioEngine) : AudioEngine :=
  {| ctx := c; nodes := nodes e; isInitialized := isInitialized e;
     currentAmp := currentAmp e; state_bright := state_bright e;
     state_drive := state_drive e |}.

Definition set_nodes (n : option Nodes) (e : AudioEngine) : AudioEngine :=
  {| ctx := ctx e; nodes := n; isInitialized := isInitialized e;
     currentAmp := currentAmp e; state_bright := state_bright e;
     state_drive := state_drive e |}.

Definition set_isInitialized (b : bool) (e : AudioEngine) : AudioEngine :=
  {| ctx := ctx e; nodes := nodes e; isInitialized := b;
     currentAmp := currentAmp e; state_bright := state_bright e;
     state_drive := state_drive e |}.

Definition set_currentAmp (m : string) (e : AudioEngine) : AudioEngine :=
  {| ctx := ctx e; nodes := nodes e; isInitialized := isInitialized e;
     currentAmp := m; state_bright := state_bright e;
     state_drive := state_drive e |}.

Definition set_state_drive (b : bool) (e : AudioEngine) : AudioEngine :=
  {| ctx := ctx e; nodes := nodes e; isInitialized := isInitialized e;
     currentAmp := currentAmp e; state_bright := state_bright e;
     state_drive := b |}.

(** [constructor()]. *)
Definition constructor : AudioEngine :=
  {| ctx := None; nodes := None; isInitialized := false;
     currentAmp := "fender"; state_bright := false; state_drive := false |}.

(** ** Outcomes of a method call *)

Inductive outcome (A : Type) : Type :=
| Returned (v : A) (e : AudioEngine)
| Threw (e : AudioEngine).
Arguments Returned {A} v e.
Arguments Threw {A} e.

Definition bind {A B : Type} (m : outcome A)
  (k : A -> AudioEngine -> outcome B) : outcome B :=
  match m with
  | Returned v e => k v e
  | Threw e => Threw e
  end.

Definition engine_of {A : Type} (m : outcome A) : AudioEngine :=
  match m with
  | Returned _ e => e
  | Threw e => e
  end.

(** What a method hands back: [undefined] or a boolean. *)
Inductive jsret : Type :=
| RetUndefined
| RetBool (b : bool).

(** Writing to a node of [this.nodes]: a [TypeError] when the node does not
    exist yet. *)
Definition with_nodes (f : Nodes -> Nodes) (e : AudioEngine) : outcome unit :=
  match nodes e with
  | Some n => Returned tt (set_nodes (Some (f n)) e)
  | None => Threw e
  end.

(** ** updateDistortion *)

Definition baseAmount (amp : string) (drive : bool) : R :=
  if String.eqb amp "fender" then (if drive then 8 else 0.5)
  else if String.eqb amp "vox" then (if drive then 15 else 2)
  else if String.eqb amp "marshall" then (if drive then 25 else 3)
  else 0.

(** [Math.max(0, (currentGain - 2) / 8)]. *)
Definition gainFactor (currentGain : R) : R := Rmax 0 ((currentGain - 2) / 8).

Definition finalAmount (amp : string) (drive : bool) (currentGain : R) : R :=
  baseAmount amp drive * (0.2 + gainFactor currentGain * 0.8).

Definition updateDistortion (e : AudioEngine) : outcome unit :=
  match nodes e with
  | None => Threw e
  | Some n =>
      let currentGain := preGain_gain n in
      let amount := finalAmount (currentAmp e) (state_drive e) currentGain in
      Returned tt
        (set_nodes (Some (set_distortion_curve (makeDistortionCurve amount) n)) e)
  end.

(** ** setInternalCab *)

(** The per-model filtering of one sample; [l1], [l2] are [left[i-1]] and
    [left[i-2]]. *)
Definition coloration (model : string) (i : nat) (val l1 l2 : R) : R :=
  if String.eqb model "fender" then
    (if Nat.eqb (i mod 2) 0 then val * 0.9 else val)
  else if String.eqb model "marshall" then
    (if Nat.ltb 2 i then (val + l1 + l2) / 3 else val)
  else if String.eqb model "vox" then
    val * 0.8
  else val.

(** The decayed noise of iteration [i]; [r] is the value of [Math.random()]
    and [len] the (real) [length] of the source. *)
Definition decayed_noise (r : R) (i : nat) (len : R) : R :=
  (r * 2 - 1) * (1 - INR i / len) ^ 4.

(** [count] iterations of the loop starting at index [i]. *)
Fixpoint cab_loop (rnd : nat -> R) (model : string) (len : R)
  (count i : nat) (left right : list R) : list R * list R :=
  match count with
  | O => (left, right)
  | S count' =>
      let val := decayed_noise (rnd i) i len in
      let val := coloration model i val
                   (typed_get (i - 1) left) (typed_get (i - 2) left) in
      cab_loop rnd model len count' (S i)
        (typed_set i val left) (typed_set i val right)
  end.

(** [length = rate * duration] as a number, the frames [createBuffer]
    allocates for it, and the number of indices [i] with [i < length]. *)
Definition duration : R := 0.5.
Definition ir_length (rate : Z) : R := IZR rate * duration.
Definition ir_frames (rate : Z) : nat := Z.to_nat (rate / 2).
Definition ir_iterations (rate : Z) : nat := Z.to_nat ((rate + 1) / 2).

Definition synthesize_impulse (rnd : nat -> R) (model : string) (rate : Z)
  : AudioBuffer :=
  let left := Float32Array (ir_frames rate) in
  let right := Float32Array (ir_frames rate) in
  let filled :=
    cab_loop rnd model (ir_length rate) (ir_iterations rate) 0 left right in
  {| buffer_sampleRate := rate; channels := [fst filled; snd filled] |}.

Definition setInternalCab (rnd : nat -> R) (model : string) (e : AudioEngine)
  : outcome unit :=
  match ctx e with
  | None => Threw e
  | Some c =>
      let impulse := synthesize_impulse rnd model (sampleRate c) in
      with_nodes (set_cab_buffer (Some impulse)) e
  end.

(** ** setParam, toggleSwitch, setAmpModel *)

Definition setParam (param : string) (value : R) (e : AudioEngine)
  : outcome unit :=
  if negb (isInitialized e) then Returned tt e
  else if String.eqb param "gate" then
    with_nodes (set_gate_threshold value) e
  else if String.eqb param "compressor" then
    let ratio := 1 + value * 11 in
    let thresh := -30 - value * 20 in
    with_nodes (set_compressor ratio thresh) e
  else if String.eqb param "preGain" then
    let multiplier := if state_drive e then 2.0 else 1.0 in
    bind (with_nodes (set_preGain_gain (value * multiplier)) e)
         (fun _ e' => updateDistortion e')
  else if String.eqb param "voice" then
    with_nodes (set_voice (value * 3) (1.5 + Rabs value * 0.2)) e
  else if String.eqb param "bass" then
    with_nodes (set_bass_gain value) e
  else if String.eqb param "mid" then
    with_nodes (set_mid_gain value) e
  else if String.eqb param "treble" then
    with_nodes (set_treble_gain value) e
  else if String.eqb param "presence" then
    with_nodes (set_presence_gain value) e
  else if String.eqb param "master" then
    with_nodes (set_master_gain (value * 0.2)) e
  else Returned tt e.

Definition toggleSwitch (switchName : string) (isActive : bool)
  (e : AudioEngine) : outcome unit :=
  if negb (isInitialized e) then Returned tt e
  else if String.eqb switchName "bright" then
    with_nodes (set_bright_gain (if isActive then 6 else 0)) e
  else if String.eqb switchName "drive" then
    let e1 := set_state_drive isActive e in
    match nodes e1 with
    | None => Threw e1
    | Some n =>
        (* [currentBase] is computed and never used. *)
        let currentBase := preGain_gain n / (if isActive then 1.0 / 3.0 else 3.0) in
        updateDistortion e1
    end
  else Returned tt e.

Definition setAmpModel (rnd : nat -> R) (model : string) (e : AudioEngine)
  : outcome unit :=
  bind (updateDistortion (set_currentAmp model e))
       (fun _ e' => setInternalCab rnd model e').

(** ** init *)

(** The nodes as [init] creates them, before the first cabinet is set.
    The tone-stack gains keep the platform default of a new filter node. *)
Definition initial_nodes : Nodes :=
  {| gate_threshold := -60; bright_gain := 0;
     compressor_ratio := 1; compressor_threshold := -30;
     preGain_gain := 3.0; voice_gain := 0; voice_Q := 1.0;
     distortion_curve := makeDistortionCurve 0;
     bass_gain := 0; mid_gain := 0; treble_gain := 0; presence_gain := 0;
     cab_buffer := None; master_gain := 1.0 |}.

(** [init] has no suspension point, so it runs as one step.  The context is
    created with [sampleRate: 48000]; [rnd1] feeds the cabinet set while the
    nodes are created and [rnd2] the one set by the closing
    [setAmpModel('fender')]. *)
Definition init (rnd1 rnd2 : nat -> R) (e : AudioEngine) : outcome unit :=
  if isInitialized e then Returned tt e
  else
    let e := set_ctx (Some {| sampleRate := 48000 |}) e in
    let e := set_nodes (Some initial_nodes) e in
    bind (setInternalCab rnd1 "fender" e) (fun _ e =>
    let e := set_isInitialized true e in
    setAmpModel rnd2 "fender" e).

(** ** loadIR and the calls a front end can make *)

Section Decoder.

(** [this.ctx.decodeAudioData]: [None] is a rejected promise. *)
Variable decodeAudioData : AudioContext -> list Byte.byte -> option AudioBuffer.

Definition loadIR (arrayBuffer : list Byte.byte) (e : AudioEngine)
  : outcome jsret :=
  match ctx e with
  | None => Returned RetUndefined e
  | Some c =>
      match decodeAudioData c arrayBuffer with
      | Some buffer =>
          (* a [TypeError] on [this.nodes.cab] is caught by the handler *)
          match nodes e with
          | Some n =>
              Returned (RetBool true)
                (set_nodes (Some (set_cab_buffer (Some buffer) n)) e)
          | None => Returned (RetBool false) e
          end
      | None => Returned (RetBool false) e
      end
  end.

Inductive call : Type :=
| Call_init (rnd1 rnd2 : nat -> R)
| Call_setParam (param : string) (value : R)
| Call_toggleSwitch (switchName : string) (isActive : bool)
| Call_setAmpModel (rnd : nat -> R) (model : string)
| Call_loadIR (arrayBuffer : list Byte.byte).

(** The engine after a call, whether it returned or threw. *)
Definition perform (c : call) (e : AudioEngine) : AudioEngine :=
  match c with
  | Call_init rnd1 rnd2 => engine_of (init rnd1 rnd2 e)
  | Call_setParam param value => engine_of (setParam param value e)
  | Call_toggleSwitch switchName isActive =>
      engine_of (toggleSwitch switchName isActive e)
  | Call_setAmpModel rnd model => engine_of (setAmpModel rnd model e)
  | Call_loadIR arrayBuffer => engine_of (loadIR arrayBuffer e)
  end.

(** The engines a front end can observe: a new object and any sequence of
    calls on it. *)
Inductive reachable : AudioEngine -> Prop :=
| reachable_new : reachable constructor
| reachable_call (c : call) (e : AudioEngine) :
    reachable e -> reachable (perform c e).

End Decoder.

(** The distortion curve agrees with the amp model, the drive flag and the
    pre-gain of the engine. *)
Definition curve_in_sync (e : AudioEngine) : Prop :=
  isInitialized e = true ->
  exists n, nodes e = Some n /\
    distortion_curve n =
      makeDistortionCurve
        (finalAmount (currentAmp e) (state_drive e) (preGain_gain n)).

(** ** The specification's readings that the code is compared with *)

(** The gain factor as the specification words it: the quotient clamped to
    the interval from 0 to 1. *)
Definition spec_gainFactor_clamped (g : R) : R :=
  Rmin 1 (Rmax 0 ((g - 2) / 8)).

(** The master gain as the specification words it: the value clamped to its
    domain from 0 to 10, then scaled by the safety factor. *)
Definition spec_master_gain_clamped (v : R) : R :=
  Rmin 10 (Rmax 0 v) * 0.2.

(** The boost factor that [setParam] applies to the pre-gain while the drive
    flag is set. *)
Definition drive_boost : R := 2.0.

(** A random source that always draws 0, for closed examples. *)
Definition rnd_zero : nat -> R := fun _ => 0.

(** A random source whose every draw is 0.75, that is the noise value 0.5. *)
Definition rnd_const : nat -> R := fun _ => 0.75.

(** A decoder that rejects every input, for closed examples. *)
Definition decode_reject : AudioContext -> list Byte.byte -> option AudioBuffer :=
  fun _ _ => None.

(** A fresh engine after [init]. *)
Definition engine_ready : AudioEngine :=
  engine_of (init rnd_zero rnd_zero constructor).

(** The engine after switching the drive on and turning the gain knob to 10. *)
Definition engine_driven : AudioEngine :=
  engine_of (setParam "preGain" 10
               (engine_of (toggleSwitch "drive" true engine_ready))).

(** ** Further vocabulary for the engine *)

(** A call that hands control back to its caller. *)
Definition returns {A : Type} (m : outcome A) : Prop :=
  match m with
  | Returned _ _ => True
  | Threw _ => False
  end.

(** The [case] labels of [setParam], the names [toggleSwitch] compares
    with, and the models [updateDistortion] has a table entry for. *)
Definition param_names : list string :=
  ["gate"; "compressor"; "preGain"; "voice"; "bass"; "mid"; "treble";
   "presence"; "master"]%string.
Definition switch_names : list string := ["bright"; "drive"]%string.
Definition amp_models : list string := ["fender"; "vox"; "marshall"]%string.

(** The shape of an engine between calls: before [init] nothing has been
    created and no flag is set; after it the context runs at 48000 Hz, the
    nodes exist, a buffer is bound to the cabinet and the bright shelf is at
    0 or 6 dB.  The [bright] flag of [this.state] is never set. *)
Definition well_formed (e : AudioEngine) : Prop :=
  state_bright e = false /\
  (isInitialized e = false ->
     ctx e = None /\ nodes e = None /\ state_drive e = false) /\
  (isInitialized e = true ->
     ctx e = Some {| sampleRate := 48000 |} /\
     exists n, nodes e = Some n /\ cab_buffer n <> None /\
       (bright_gain n = 0 \/ bright_gain n = 6)).

(** A decoded buffer and a decoder that accepts every input, for closed
    examples. *)
Definition buffer_click : AudioBuffer :=
  {| buffer_sampleRate := 48000; channels := [[1; 0]; [1; 0]] |}.
Definition decode_accept : AudioContext -> list Byte.byte -> option AudioBuffer :=
  fun _ _ => Some buffer_click.

(** The largest finite 32-bit float.  The value of an audio parameter is a
    32-bit float of the platform interface: a write of a number beyond this
    magnitude is refused with a [TypeError], a case the methods above do not
    have; it is the precondition of the statements about calls that return. *)
Definition float_max : R := 340282346638528859811704183484516925440.

(** Every setting [setParam] derives from [value] fits a 32-bit float: the
    largest is the compressor threshold -30 - 20 value. *)
Definition fits_float (value : R) : Prop := 30 + 20 * Rabs value <= float_max.

(** The left channel of the synthetic impulse response. *)
Definition impulse_left (rnd : nat -> R) (model : string) (rate : Z) : list R :=
  hd [] (channels (synthesize_impulse rnd model rate)).

(** The envelope [Math.pow(1 - i / length, 4)]. *)
Definition envelope (i : nat) (len : R) : R := (1 - INR i / len) ^ 4.

(** ** ui-controller.js: knobs, dragging and the level meter *)

(** A knob element: [dataset.param], [dataset.min], [dataset.max],
    [dataset.value] and the rotation of [style.transform] in degrees. *)
Record Knob := {
  knob_param : string;
  knob_min : R;
  knob_max : R;
  knob_value : R;
  knob_angle : R
}.

(** The angle [updateKnobVisual] computes. *)
Definition knob_rotation (value min max : R) : R :=
  let percent := (value - min) / (max - min) in
  -135 + percent * 270.

Definition updateKnobVisual (knob : Knob) (value min max : R) : Knob :=
  {| knob_param := knob_param knob; knob_min := knob_min knob;
     knob_max := knob_max knob; knob_value := knob_value knob;
     knob_angle := knob_rotation value min max |}.

Definition set_knob_value (value : R) (knob : Knob) : Knob :=
  {| knob_param := knob_param knob; knob_min := knob_min knob;
     knob_max := knob_max knob; knob_value := value;
     knob_angle := knob_angle knob |}.

(** The fields of the controller that dragging reads and writes.  The knob
    elements are a store indexed by element; [currentKnob] refers to one. *)
Record UIController := {
  audio : AudioEngine;
  knobs : nat -> Knob;
  isDragging : bool;
  currentKnob : option nat;
  startY : R;
  startValue : R
}.

Definition startDrag (clientY : R) (knob : nat) (ui : UIController)
  : UIController :=
  {| audio := audio ui; knobs := knobs ui;
     isDragging := true; currentKnob := Some knob;
     startY := clientY; startValue := knob_value (knobs ui knob) |}.

(** The value [handleDrag] computes for a pointer at [clientY]. *)
Definition drag_value (clientY : R) (knob : Knob) (ui : UIController) : R :=
  let deltaY := startY ui - clientY in
  let min := knob_min knob in
  let max := knob_max knob in
  let range := max - min in
  let step := range / 200 in
  let newValue := startValue ui + deltaY * step in
  Rmin (Rmax newValue min) max.

(** [handleDrag]: the knob is updated, then the engine is told; the
    controller keeps the engine as the call left it. *)
Definition handleDrag (clientY : R) (ui : UIController) : UIController :=
  if negb (isDragging ui) then ui
  else
    match currentKnob ui with
    | None => ui
    | Some k =>
        let knob := knobs ui k in
        let newValue := drag_value clientY knob ui in
        let knob' :=
          updateKnobVisual (set_knob_value newValue knob) newValue
            (knob_min knob) (knob_max knob) in
        {| audio := engine_of (setParam (knob_param knob) newValue (audio ui));
           knobs := fun j => if Nat.eqb j k then knob' else knobs ui j;
           isDragging := isDragging ui; currentKnob := currentKnob ui;
           startY := startY ui; startValue := startValue ui |}
    end.

Definition endDrag (ui : UIController) : UIController :=
  {| audio := audio ui; knobs := knobs ui;
     isDragging := false; currentKnob := None;
     startY := startY ui; startValue := startValue ui |}.

(** The level meter of [startVisualizer]: the bytes of the analyser are
    summed, averaged and scaled; [dataArray] is a [Uint8Array]. *)
Definition byte_value (b : Byte.byte) : R := IZR (Z.of_N (Strings.Byte.to_N b)).

Definition meter_sum (dataArray : list Byte.byte) : R :=
  fold_left (fun sum b => sum + byte_value b) dataArray 0.

Definition meter_height (dataArray : list Byte.byte) : R :=
  let sum := meter_sum dataArray in
  let average := sum / INR (List.length dataArray) in
  Rmin 100 (average / 32 * 100).

(** A knob for the closed examples: the master control from 0 to 10. *)
Definition knob_master : Knob :=
  {| knob_param := "master"; knob_min := 0; knob_max := 10;
     knob_value := 5; knob_angle := 0 |}.

(** A controller on a ready engine, about to drag the master knob. *)
Definition ui_ready : UIController :=
  {| audio := engine_ready; knobs := fun _ => knob_master;
     isDragging := false; currentKnob := None; startY := 0; startValue := 0 |}.

(** The gain knob from 0 to 10, and a controller on a ready engine about to
    drag it. *)
Definition knob_gain : Knob :=
  {| knob_param := "preGain"; knob_min := 0; knob_max := 10;
     knob_value := 3; knob_angle := 0 |}.

Definition ui_gain : UIController :=
  {| audio := engine_ready; knobs := fun _ => knob_gain;
     isDragging := false; currentKnob := None; startY := 0; startValue := 0 |}.

(** * Properties *)

(** ** Real arithmetic behind the curve *)

Section Hyperbolic.

Lemma cosh_pos (x : R) : 0 < cosh x.
Proof.
  unfold cosh.
  pose proof (exp_pos x). pose proof (exp_pos (- x)). lra.
Qed.

Lemma tanh_opp (x : R) : tanh (- x) = - tanh x.
Proof.
  unfold tanh, sinh.
  pose proof (cosh_pos x) as Hc. pose proof (cosh_pos (- x)) as Hc'.
  unfold cosh in *. rewrite Ropp_involutive in *.
  field. lra.
Qed.

Lemma exp_mult_opp (x : R) : exp x * exp (- x) = 1.
Proof. rewrite <- exp_plus, Rplus_opp_r. apply exp_0. Qed.

Lemma tanh_le (x y : R) : x <= y -> tanh x <= tanh y.
Proof.
  intros Hxy.
  assert (Ha : exp x <= exp y).
  { destruct Hxy as [Hlt | ->]; [left; now apply exp_increasing | right; reflexivity]. }
  pose proof (exp_pos x) as Hx. pose proof (exp_pos (- x)) as Hx'.
  pose proof (exp_pos y) as Hy. pose proof (exp_pos (- y)) as Hy'.
  pose proof (exp_mult_opp x) as Ex. pose proof (exp_mult_opp y) as Ey.
  assert (Hb : exp (- y) <= exp (- x)).
  { apply Rmult_le_reg_l with (exp x * exp y); [nra|]. nra. }
  unfold tanh, sinh, cosh.
  apply Rmult_le_reg_r with ((exp x + exp (- x)) / 2 * ((exp y + exp (- y)) / 2)).
  - nra.
  - field_simplify; [| lra | lra]. nra.
Qed.

Lemma tanh_lt (x y : R) : x < y -> tanh x < tanh y.
Proof.
intros Hxy.
pose proof (exp_increasing x y Hxy) as Ha.
pose proof (exp_increasing (- y) (- x) ltac:(lra)) as Hb.
pose proof (exp_pos x) as Hx. pose proof (exp_pos (- x)) as Hx'.
pose proof (exp_pos y) as Hy. pose proof (exp_pos (- y)) as Hy'.
unfold tanh, sinh, cosh.
apply Rmult_lt_reg_r with ((exp x + exp (- x)) / 2 * ((exp y + exp (- y)) / 2)).
- nra.
- field_simplify; [| lra | lra]. nra.
Qed.

Lemma tanh_pos (k : R) : 0 < k -> 0 < tanh k.
Proof.
  intros Hk.
  pose proof (exp_increasing (- k) k ltac:(lra)) as Hlt.
  pose proof (cosh_pos k) as Hc.
  unfold tanh, sinh. apply Rdiv_lt_0_compat; [lra | exact Hc].
Qed.

End Hyperbolic.

(** ** The distortion curve *)

Section Curve.

Lemma makeDistortionCurve_length (amount : R) :
  List.length (makeDistortionCurve amount) = Z.to_nat n_samples.
Proof.
  unfold makeDistortionCurve. now rewrite length_map, length_seq.
Qed.

(** Entry [i] of the table is the loop body at [x = i * 2 / n_samples - 1]. *)
Lemma makeDistortionCurve_get (amount : R) (i : nat) :
  (i < Z.to_nat n_samples)%nat ->
  typed_get i (makeDistortionCurve amount) =
    curve_sample amount (curve_x (Z.of_nat i)).
Proof.
  intros Hi. unfold typed_get, makeDistortionCurve.
  set (f := fun k : nat => curve_sample amount (curve_x (Z.of_nat k))).
  rewrite (nth_indep _ 0 (f O)) by now rewrite length_map, length_seq.
  rewrite map_nth, seq_nth by exact Hi.
  reflexivity.
Qed.

Lemma curve_x_le (i j : nat) :
  (i <= j)%nat -> curve_x (Z.of_nat i) <= curve_x (Z.of_nat j).
Proof.
  intros Hij. unfold curve_x, n_samples.
  assert (H : IZR (Z.of_nat i) <= IZR (Z.of_nat j)) by (apply IZR_le; lia).
  lra.
Qed.

(** No sampled position reaches the upper end of the domain. *)
Lemma curve_x_lt_1 (i : nat) :
  (i < Z.to_nat n_samples)%nat -> curve_x (Z.of_nat i) < 1.
Proof.
  intros Hi. unfold curve_x, n_samples in *.
  assert (H : IZR (Z.of_nat i) < IZR 44100) by (apply IZR_lt; lia).
  lra.
Qed.

Lemma curve_x_0 : curve_x 0 = -1.
Proof. unfold curve_x, n_samples. lra. Qed.

Lemma curve_sample_opp (amount x : R) :
  curve_sample amount (- x) = - curve_sample amount x.
Proof.
  unfold curve_sample. destruct (Rlt_dec amount 1) as [Hlow | Hhigh].
  - ring.
  - cbv zeta.
    replace (amount * 0.5 * - x) with (- (amount * 0.5 * x)) by ring.
    rewrite tanh_opp.
    pose proof (tanh_pos (amount * 0.5) ltac:(lra)) as Hk.
    field. lra.
Qed.

Lemma curve_sample_le (amount x y : R) :
  x <= y -> curve_sample amount x <= curve_sample amount y.
Proof.
  intros Hxy. unfold curve_sample.
  destruct (Rlt_dec amount 1) as [Hlow | Hhigh].
  - nra.
  - cbv zeta.
    pose proof (tanh_pos (amount * 0.5) ltac:(lra)) as Hk.
    apply Rmult_le_compat_r.
    + left. now apply Rinv_0_lt_compat.
    + apply tanh_le. nra.
Qed.

Lemma curve_sample_high_1 (amount : R) :
  1 <= amount -> curve_sample amount 1 = 1.
Proof.
  intros Ha. unfold curve_sample.
  destruct (Rlt_dec amount 1) as [Hlow | Hhigh]; [lra |].
  cbv zeta. rewrite Rmult_1_r.
  pose proof (tanh_pos (amount * 0.5) ltac:(lra)) as Hk.
  field. lra.
Qed.

(** In the high regime, in the exact arithmetic of this model, every entry
    of the table lies strictly below 1: the table stops one step short of
    the upper end of the domain.  (Stored as 32-bit floats, entries close to
    the upper end can round to 1 at large amounts.) *)
Lemma makeDistortionCurve_below_1 (amount : R) (i : nat) :
  1 <= amount -> (i < Z.to_nat n_samples)%nat ->
  typed_get i (makeDistortionCurve amount) < 1.
Proof.
intros Ha Hi. rewrite makeDistortionCurve_get by exact Hi.
pose proof (curve_x_lt_1 i Hi) as Hx.
unfold curve_sample. destruct (Rlt_dec amount 1) as [Hlow | Hhigh]; [lra |].
cbv zeta.
pose proof (tanh_pos (amount * 0.5) ltac:(lra)) as Hk.
pose proof (tanh_lt (amount * 0.5 * curve_x (Z.of_nat i)) (amount * 0.5)
              ltac:(nra)) as Hlt.
apply Rmult_lt_reg_r with (tanh (amount * 0.5)); [exact Hk |].
unfold Rdiv. rewrite Rmult_assoc, Rinv_l by lra. lra.
Qed.

End Curve.

(** ** Method calls on an engine whose nodes exist *)

Section Methods.

Variables (e : AudioEngine) (n : Nodes).
Hypothesis Hnodes : nodes e = Some n.

Lemma with_nodes_some (f : Nodes -> Nodes) :
  with_nodes f e = Returned tt (set_nodes (Some (f n)) e).
Proof. unfold with_nodes. now rewrite Hnodes. Qed.

Lemma updateDistortion_some :
  updateDistortion e =
    Returned tt
      (set_nodes
         (Some (set_distortion_curve
                  (makeDistortionCurve
                     (finalAmount (currentAmp e) (state_drive e)
                        (preGain_gain n))) n)) e).
Proof. unfold updateDistortion. now rewrite Hnodes. Qed.

Lemma setInternalCab_some (rnd : nat -> R) (model : string) (c : AudioContext) :
  ctx e = Some c ->
  setInternalCab rnd model e =
    Returned tt
      (set_nodes
         (Some (set_cab_buffer
                  (Some (synthesize_impulse rnd model (sampleRate c))) n)) e).
Proof.
  intros Hc. unfold setInternalCab. rewrite Hc. apply with_nodes_some.
Qed.

Hypothesis Hinit : isInitialized e = true.

Lemma setParam_preGain (value : R) :
  setParam "preGain" value e =
    let g := value * (if state_drive e then 2.0 else 1.0) in
    Returned tt
      (set_nodes
         (Some (set_distortion_curve
                  (makeDistortionCurve
                     (finalAmount (currentAmp e) (state_drive e) g))
                  (set_preGain_gain g n))) e).
Proof.
  unfold setParam. rewrite Hinit. cbn [negb].
  change (String.eqb "preGain" "gate") with false.
  change (String.eqb "preGain" "compressor") with false.
  change (String.eqb "preGain" "preGain") with true.
  cbv iota. rewrite with_nodes_some. reflexivity.
Qed.

Lemma setParam_master (value : R) :
  setParam "master" value e =
    Returned tt (set_nodes (Some (set_master_gain (value * 0.2) n)) e).
Proof.
  unfold setParam. rewrite Hinit. cbn [negb].
  change (String.eqb "master" "gate") with false.
  change (String.eqb "master" "compressor") with false.
  change (String.eqb "master" "preGain") with false.
  change (String.eqb "master" "voice") with false.
  change (String.eqb "master" "bass") with false.
  change (String.eqb "master" "mid") with false.
  change (String.eqb "master" "treble") with false.
  change (String.eqb "master" "presence") with false.
  change (String.eqb "master" "master") with true.
  cbv iota. apply with_nodes_some.
Qed.

Lemma toggleSwitch_drive (isActive : bool) :
  toggleSwitch "drive" isActive e =
    Returned tt
      (set_nodes
         (Some (set_distortion_curve
                  (makeDistortionCurve
                     (finalAmount (currentAmp e) isActive (preGain_gain n)))
                  n)) (set_state_drive isActive e)).
Proof.
  unfold toggleSwitch. rewrite Hinit. cbn [negb].
  change (String.eqb "drive" "bright") with false.
  change (String.eqb "drive" "drive") with true.
  cbv iota.
  change (nodes (set_state_drive isActive e)) with (nodes e).
  rewrite Hnodes. cbv zeta.
  unfold updateDistortion.
  change (nodes (set_state_drive isActive e)) with (nodes e).
  rewrite Hnodes. reflexivity.
Qed.

End Methods.

(** ** init, and the invariant of the engines a front end can reach *)

Section Invariant.

Lemma init_uninitialized (rnd1 rnd2 : nat -> R) (e : AudioEngine) :
  isInitialized e = false ->
  init rnd1 rnd2 e =
    Returned tt
      {| ctx := Some {| sampleRate := 48000 |};
         nodes :=
           Some (set_cab_buffer
                   (Some (synthesize_impulse rnd2 "fender" 48000))
                   (set_distortion_curve
                      (makeDistortionCurve
                         (finalAmount "fender" (state_drive e) 3.0))
                      (set_cab_buffer
                         (Some (synthesize_impulse rnd1 "fender" 48000))
                         initial_nodes)));
         isInitialized := true;
         currentAmp := "fender";
         state_bright := state_bright e;
         state_drive := state_drive e |}.
Proof.
  intros Hu. unfold init. rewrite Hu. cbv zeta.
  erewrite setInternalCab_some by reflexivity.
  unfold bind, setAmpModel.
  erewrite updateDistortion_some by reflexivity.
  unfold bind.
  erewrite setInternalCab_some by reflexivity.
  reflexivity.
Qed.

Lemma with_nodes_in_sync (f : Nodes -> Nodes) (e : AudioEngine) :
  (forall n, distortion_curve (f n) = distortion_curve n) ->
  (forall n, preGain_gain (f n) = preGain_gain n) ->
  curve_in_sync e -> curve_in_sync (engine_of (with_nodes f e)).
Proof.
  intros Hc Hg Hs. unfold with_nodes.
  destruct (nodes e) as [n |] eqn:Hn; cbn [engine_of]; [| exact Hs].
  intros Hi. destruct (Hs Hi) as (n' & Hn' & Hcurve).
  rewrite Hn in Hn'. injection Hn' as <-.
  exists (f n). split; [reflexivity |].
  rewrite Hc, Hg. exact Hcurve.
Qed.

Lemma updateDistortion_in_sync (e : AudioEngine) :
  (isInitialized e = true -> nodes e <> None) ->
  curve_in_sync (engine_of (updateDistortion e)).
Proof.
  intros Hn. unfold updateDistortion.
  destruct (nodes e) as [n |] eqn:En; cbn [engine_of].
  - intros _. eexists. split; reflexivity.
  - intros Hi. now destruct (Hn Hi).
Qed.

Lemma curve_in_sync_nodes (e : AudioEngine) :
  curve_in_sync e -> isInitialized e = true -> nodes e <> None.
Proof. intros Hs Hi. destruct (Hs Hi) as (n & -> & _). discriminate. Qed.

Lemma setInternalCab_in_sync (rnd : nat -> R) (model : string) (e : AudioEngine) :
  curve_in_sync e -> curve_in_sync (engine_of (setInternalCab rnd model e)).
Proof.
  intros Hs. unfold setInternalCab.
  destruct (ctx e); [| exact Hs].
  now apply with_nodes_in_sync.
Qed.

Lemma setAmpModel_in_sync (rnd : nat -> R) (model : string) (e : AudioEngine) :
  curve_in_sync e -> curve_in_sync (engine_of (setAmpModel rnd model e)).
Proof.
  intros Hs. unfold setAmpModel.
  pose proof (updateDistortion_in_sync (set_currentAmp model e)
                (curve_in_sync_nodes e Hs)) as Hu.
  destruct (updateDistortion (set_currentAmp model e)) as [[] e' | e'];
    cbn [bind engine_of] in *.
  - now apply setInternalCab_in_sync.
  - exact Hu.
Qed.

Lemma setParam_in_sync (param : string) (value : R) (e : AudioEngine) :
  curve_in_sync e -> curve_in_sync (engine_of (setParam param value e)).
Proof.
  intros Hs. unfold setParam.
  destruct (isInitialized e) eqn:Hi; cbn [negb]; [| exact Hs].
  repeat match goal with
  | |- context [if String.eqb param ?s then _ else _] =>
      destruct (String.eqb param s)
  end;
  try (apply with_nodes_in_sync; [reflexivity | reflexivity | exact Hs]);
  try exact Hs.
  destruct (Hs Hi) as (n & Hn & _).
  rewrite (with_nodes_some e n Hn). cbn [bind].
  apply updateDistortion_in_sync. discriminate.
Qed.

Lemma toggleSwitch_in_sync (switchName : string) (isActive : bool)
  (e : AudioEngine) :
  curve_in_sync e ->
  curve_in_sync (engine_of (toggleSwitch switchName isActive e)).
Proof.
  intros Hs. unfold toggleSwitch.
  destruct (isInitialized e) eqn:Hi; cbn [negb]; [| exact Hs].
  destruct (String.eqb switchName "bright").
  { apply with_nodes_in_sync; [reflexivity | reflexivity | exact Hs]. }
  destruct (String.eqb switchName "drive"); [| exact Hs].
  destruct (Hs Hi) as (n & Hn & _).
  change (nodes (set_state_drive isActive e)) with (nodes e).
  rewrite Hn. cbv zeta.
  apply updateDistortion_in_sync. cbn. rewrite Hn. discriminate.
Qed.

Lemma init_in_sync (rnd1 rnd2 : nat -> R) (e : AudioEngine) :
  curve_in_sync e -> curve_in_sync (engine_of (init rnd1 rnd2 e)).
Proof.
  intros Hs. destruct (isInitialized e) eqn:Hi.
  - unfold init. rewrite Hi. exact Hs.
  - rewrite (init_uninitialized rnd1 rnd2 e Hi). cbn [engine_of].
    intros _. eexists. split; reflexivity.
Qed.

Variable decodeAudioData : AudioContext -> list Byte.byte -> option AudioBuffer.

Lemma loadIR_in_sync (arrayBuffer : list Byte.byte) (e : AudioEngine) :
  curve_in_sync e ->
  curve_in_sync (engine_of (loadIR decodeAudioData arrayBuffer e)).
Proof.
  intros Hs. unfold loadIR.
  destruct (ctx e) as [c |]; [| exact Hs].
  destruct (decodeAudioData c arrayBuffer) as [buffer |]; [| exact Hs].
  destruct (nodes e) as [n |] eqn:Hn; [| exact Hs].
  cbn [engine_of]. intros Hi. destruct (Hs Hi) as (n' & Hn' & Hcurve).
  rewrite Hn in Hn'. injection Hn' as <-.
  eexists. split; [reflexivity |]. exact Hcurve.
Qed.

Lemma reachable_in_sync (e : AudioEngine) :
  reachable decodeAudioData e -> curve_in_sync e.
Proof.
  induction 1 as [| c e Hr IH].
  - intros Hi. discriminate Hi.
  - destruct c; cbn [perform].
    + now apply init_in_sync.
    + now apply setParam_in_sync.
    + now apply toggleSwitch_in_sync.
    + now apply setAmpModel_in_sync.
    + now apply loadIR_in_sync.
Qed.

End Invariant.

(** ** The engine used in the closed examples *)

Section Ready.

Lemma engine_ready_eq :
  engine_ready =
    {| ctx := Some {| sampleRate := 48000 |};
       nodes :=
         Some (set_cab_buffer
                 (Some (synthesize_impulse rnd_zero "fender" 48000))
                 (set_distortion_curve
                    (makeDistortionCurve (finalAmount "fender" false 3.0))
                    (set_cab_buffer
                       (Some (synthesize_impulse rnd_zero "fender" 48000))
                       initial_nodes)));
       isInitialized := true;
       currentAmp := "fender";
       state_bright := false;
       state_drive := false |}.
Proof.
  unfold engine_ready.
  now rewrite (init_uninitialized rnd_zero rnd_zero constructor eq_refl).
Qed.

Lemma engine_ready_initialized : isInitialized engine_ready = true.
Proof. now rewrite engine_ready_eq. Qed.

Lemma engine_ready_drive : state_drive engine_ready = false.
Proof. now rewrite engine_ready_eq. Qed.

Lemma engine_ready_amp : currentAmp engine_ready = "fender"%string.
Proof. now rewrite engine_ready_eq. Qed.

Lemma engine_ready_nodes :
  exists n, nodes engine_ready = Some n /\ preGain_gain n = 3.0.
Proof. rewrite engine_ready_eq. eexists. split; reflexivity. Qed.

Lemma engine_ready_reachable
  (decodeAudioData : AudioContext -> list Byte.byte -> option AudioBuffer) :
  reachable decodeAudioData engine_ready.
Proof.
  exact (reachable_call decodeAudioData (Call_init rnd_zero rnd_zero)
           constructor (reachable_new decodeAudioData)).
Qed.

End Ready.

(** ** The distortion amount *)

Section Amount.

Lemma gainFactor_nonneg (g : R) : 0 <= gainFactor g.
Proof. unfold gainFactor. apply Rmax_l. Qed.


Lemma baseAmount_nonneg (amp : string) (drive : bool) :
  0 <= baseAmount amp drive.
Proof.
  unfold baseAmount.
  destruct (String.eqb amp "fender"), (String.eqb amp "vox"),
    (String.eqb amp "marshall"), drive; lra.
Qed.


Lemma finalAmount_nonneg (amp : string) (drive : bool) (g : R) :
  0 <= finalAmount amp drive g.
Proof.
  unfold finalAmount.
  pose proof (baseAmount_nonneg amp drive).
  pose proof (gainFactor_nonneg g).
  nra.
Qed.

End Amount.

(** ** Curve synthesis: symmetry, end points, monotonicity *)

(** C2, as worded, fails at the upper end point: no position of the table
    has input 1 (the positions stop at 1 - 2/44100), and at amount 2 the
    entry at the upper end of the table, index 44099, is below 1. *)
Lemma C2_upper_endpoint_counterexample :
  (forall i : nat, (i < Z.to_nat n_samples)%nat -> curve_x (Z.of_nat i) < 1) /\
  Z.to_nat 44099 = (Z.to_nat n_samples - 1)%nat /\
  typed_get (Z.to_nat 44099) (makeDistortionCurve 2) < 1.
Proof.
split; [exact curve_x_lt_1 | split].
- unfold n_samples. lia.
- apply makeDistortionCurve_below_1; [lra | unfold n_samples; lia].
Qed.

(** C2, amended.  For every amount >= 0 the table is odd-symmetric: whenever
    the positions [i] and [j] of the table have opposite inputs, the entries
    are opposite.  The inputs of the table run from -1 (index 0) to below 1:
    the end point 1 is not a position of the table.  For every amount >= 1
    the entry at the lower end point (index 0, input -1) is exactly -1. *)
Theorem C2_curve_odd_symmetric_lower_endpoint (amount : R) :
  0 <= amount ->
  (forall i j : nat,
      (i < Z.to_nat n_samples)%nat -> (j < Z.to_nat n_samples)%nat ->
      curve_x (Z.of_nat j) = - curve_x (Z.of_nat i) ->
      typed_get j (makeDistortionCurve amount) =
        - typed_get i (makeDistortionCurve amount)) /\
  (forall i : nat,
      (i < Z.to_nat n_samples)%nat -> -1 <= curve_x (Z.of_nat i) < 1) /\
  (1 <= amount ->
     curve_x 0 = -1 /\
     typed_get 0 (makeDistortionCurve amount) = -1).
Proof.
intros _. split; [| split].
- intros i j Hi Hj Hx.
  rewrite !makeDistortionCurve_get by assumption.
  rewrite Hx. apply curve_sample_opp.
- intros i Hi. split; [| now apply curve_x_lt_1].
  unfold curve_x, n_samples.
  assert (H : 0 <= IZR (Z.of_nat i)) by (apply IZR_le; lia).
  lra.
- intros Ha. split; [exact curve_x_0 |].
  rewrite makeDistortionCurve_get by (unfold n_samples; lia).
  change (Z.of_nat 0) with 0%Z. rewrite curve_x_0.
  replace (-1) with (Ropp 1) by lra.
  now rewrite curve_sample_opp, curve_sample_high_1.
Qed.

Lemma C2_curve_odd_symmetric_lower_endpoint_witness :
  typed_get (Z.to_nat 44099) (makeDistortionCurve 2) =
    - typed_get (Z.to_nat 1) (makeDistortionCurve 2) /\
  typed_get 0 (makeDistortionCurve 2) = -1.
Proof.
destruct (C2_curve_odd_symmetric_lower_endpoint 2 ltac:(lra))
  as (Hodd & _ & Hend).
split.
- apply Hodd.
  + unfold n_samples; lia.
  + unfold n_samples; lia.
  + rewrite !Z2Nat.id by lia. unfold curve_x, n_samples. lra.
- apply Hend. lra.
Defined.

(** C4.  For every amount >= 0 the table is non-decreasing: for all
    positions [i <= j] of the table, entry [i] is at most entry [j], in the
    low regime (amount < 1) and in the high regime (amount >= 1) alike. *)
Theorem C4_curve_monotone (amount : R) (i j : nat) :
  0 <= amount ->
  (i <= j)%nat -> (j < Z.to_nat n_samples)%nat ->
  typed_get i (makeDistortionCurve amount) <=
    typed_get j (makeDistortionCurve amount).
Proof.
  intros _ Hij Hj.
  rewrite !makeDistortionCurve_get by lia.
  apply curve_sample_le. now apply curve_x_le.
Qed.

Lemma C4_curve_monotone_witness :
  typed_get 3 (makeDistortionCurve 0.15) <= typed_get 7 (makeDistortionCurve 0.15) /\
  typed_get 3 (makeDistortionCurve 16) <= typed_get 7 (makeDistortionCurve 16).
Proof.
  split.
  - apply (C4_curve_monotone 0.15 3 7); [lra | lia | unfold n_samples; lia].
  - apply (C4_curve_monotone 16 3 7); [lra | lia | unfold n_samples; lia].
Defined.

(** ** The distortion amount derived from model, drive flag and pre-gain *)

Lemma baseAmount_table :
  baseAmount "fender" false = 0.5 /\ baseAmount "fender" true = 8 /\
  baseAmount "vox" false = 2 /\ baseAmount "vox" true = 15 /\
  baseAmount "marshall" false = 3 /\ baseAmount "marshall" true = 25.
Proof. repeat split; reflexivity. Qed.

Lemma Rmax_0_le_1 (g : R) : Rmax 0 ((g - 2) / 8) <= 1 <-> g <= 10.
Proof.
  unfold Rmax. destruct (Rle_dec 0 ((g - 2) / 8)); split; intros; lra.
Qed.

(** C1, as worded, fails: with the drive on and the gain knob at 10 the
    pre-gain is 20, the amount fed to curve synthesis is 16, and the formula
    with the gain factor clamped to the interval from 0 to 1 gives 8. *)
Lemma C1_gainFactor_clamp_counterexample :
  option_map distortion_curve (nodes engine_driven) =
    Some (makeDistortionCurve (finalAmount "fender" true (10 * 2.0))) /\
  finalAmount "fender" true (10 * 2.0) = 16 /\
  baseAmount "fender" true * (0.2 + spec_gainFactor_clamped (10 * 2.0) * 0.8) = 8 /\
  finalAmount "fender" true (10 * 2.0) <>
    baseAmount "fender" true * (0.2 + spec_gainFactor_clamped (10 * 2.0) * 0.8).
Proof.
  assert (Hcode : finalAmount "fender" true (10 * 2.0) = 16).
  { unfold finalAmount, gainFactor.
    change (baseAmount "fender" true) with 8.
    unfold Rmax. destruct (Rle_dec 0 ((10 * 2.0 - 2) / 8)); lra. }
  assert (Hspec : baseAmount "fender" true *
                    (0.2 + spec_gainFactor_clamped (10 * 2.0) * 0.8) = 8).
  { unfold spec_gainFactor_clamped.
    change (baseAmount "fender" true) with 8.
    unfold Rmax. destruct (Rle_dec 0 ((10 * 2.0 - 2) / 8)); [| lra].
    unfold Rmin. destruct (Rle_dec 1 ((10 * 2.0 - 2) / 8)); lra. }
  split; [| split; [| split]].
  - unfold engine_driven.
    destruct engine_ready_nodes as (n & Hn & Hg).
    rewrite (toggleSwitch_drive engine_ready n Hn engine_ready_initialized).
    cbn [engine_of].
    erewrite setParam_preGain by reflexivity.
    cbn [engine_of]. rewrite engine_ready_amp. reflexivity.
  - exact Hcode.
  - exact Hspec.
  - rewrite Hcode, Hspec. lra.
Qed.

(** C1, amended.  The amount fed to curve synthesis is
    baseAmount * (0.2 + gainFactor * 0.8), where baseAmount is the entry of
    the model and drive flag in the table (0 for an unknown model) and
    gainFactor = max(0, (g - 2) / 8): bounded below by 0 and not bounded
    above, at most 1 exactly when g <= 10.  For model fender (clean) with
    the drive off and pre-gain 3.0 the amount is 0.15. *)
Theorem C1_updateDistortion_amount (e : AudioEngine) (n : Nodes) :
  nodes e = Some n ->
  let g := preGain_gain n in
  let base := baseAmount (currentAmp e) (state_drive e) in
  updateDistortion e =
    Returned tt
      (set_nodes
         (Some (set_distortion_curve
                  (makeDistortionCurve
                     (base * (0.2 + Rmax 0 ((g - 2) / 8) * 0.8))) n)) e) /\
  0 <= Rmax 0 ((g - 2) / 8) /\
  (Rmax 0 ((g - 2) / 8) <= 1 <-> g <= 10) /\
  (baseAmount "fender" false = 0.5 /\ baseAmount "fender" true = 8 /\
   baseAmount "vox" false = 2 /\ baseAmount "vox" true = 15 /\
   baseAmount "marshall" false = 3 /\ baseAmount "marshall" true = 25) /\
  finalAmount "fender" false 3.0 = 0.15.
Proof.
  intros Hn g base. split; [| split; [| split; [| split]]].
  - now rewrite (updateDistortion_some e n Hn).
  - apply Rmax_l.
  - apply Rmax_0_le_1.
  - exact baseAmount_table.
  - unfold finalAmount, gainFactor.
    change (baseAmount "fender" false) with 0.5.
    unfold Rmax. destruct (Rle_dec 0 ((3.0 - 2) / 8)); lra.
Qed.

Lemma C1_updateDistortion_amount_witness :
  updateDistortion (set_nodes (Some initial_nodes) constructor) =
    Returned tt
      (set_nodes
         (Some (set_distortion_curve
                  (makeDistortionCurve
                     (baseAmount "fender" false *
                        (0.2 + Rmax 0 ((3.0 - 2) / 8) * 0.8))) initial_nodes))
         (set_nodes (Some initial_nodes) constructor)).
Proof.
  exact (proj1 (C1_updateDistortion_amount
                  (set_nodes (Some initial_nodes) constructor)
                  initial_nodes eq_refl)).
Defined.

(** ** setParam and toggleSwitch *)

(** C3, as worded, fails: on a ready engine, setting master to 12 applies
    the gain 12 * 0.2 = 2.4, not the gain 10 * 0.2 = 2 of the clamped
    value. *)
Lemma C3_master_clamp_counterexample :
  option_map master_gain
    (nodes (engine_of (setParam "master" 12 engine_ready))) = Some (12 * 0.2) /\
  12 * 0.2 <> spec_master_gain_clamped 12.
Proof.
  split.
  - destruct engine_ready_nodes as (n & Hn & _).
    now rewrite (setParam_master engine_ready n Hn engine_ready_initialized).
  - unfold spec_master_gain_clamped, Rmax.
    destruct (Rle_dec 0 12); [| lra].
    unfold Rmin. destruct (Rle_dec 10 12); lra.
Qed.

(** C3, amended.  On an initialized engine, setting the master parameter to
    any value applies that value times the safety factor 0.2 to the master
    gain, without clamping it to a domain, and changes nothing else. *)
Theorem C3_setParam_master_scales (e : AudioEngine) (n : Nodes) (value : R) :
  isInitialized e = true ->
  nodes e = Some n ->
  setParam "master" value e =
    Returned tt (set_nodes (Some (set_master_gain (value * 0.2) n)) e).
Proof. intros Hi Hn. exact (setParam_master e n Hn Hi value). Qed.

Lemma C3_setParam_master_scales_witness :
  setParam "master" 12
    (set_isInitialized true (set_nodes (Some initial_nodes) constructor)) =
    Returned tt
      (set_nodes (Some (set_master_gain (12 * 0.2) initial_nodes))
         (set_isInitialized true (set_nodes (Some initial_nodes) constructor))).
Proof.
  exact (C3_setParam_master_scales
           (set_isInitialized true (set_nodes (Some initial_nodes) constructor))
           initial_nodes 12 eq_refl eq_refl).
Defined.

(** C5, as worded, fails: on a ready engine the pre-gain is 3.0 before and
    after the drive switch is enabled; it is not multiplied by the boost
    factor. *)
Lemma C5_drive_toggle_counterexample :
  option_map preGain_gain (nodes engine_ready) = Some 3.0 /\
  option_map preGain_gain
    (nodes (engine_of (toggleSwitch "drive" true engine_ready))) = Some 3.0 /\
  3.0 <> 3.0 * drive_boost.
Proof.
  split; [| split].
  - now rewrite engine_ready_eq.
  - destruct engine_ready_nodes as (n & Hn & Hg).
    rewrite (toggleSwitch_drive engine_ready n Hn engine_ready_initialized).
    cbn [engine_of set_nodes nodes option_map set_distortion_curve preGain_gain].
    now rewrite Hg.
  - unfold drive_boost. lra.
Qed.

(** C5, amended.  Enabling the drive switch sets the drive flag and
    recomputes the distortion curve from the drive-on amount, and leaves the
    gain of the pre-gain stage as it was; the boost factor 2.0 is applied to
    the value whenever the pre-gain parameter is set while the flag is on. *)
Theorem C5_drive_toggle_flags_and_recomputes (e : AudioEngine) (n : Nodes) :
  isInitialized e = true ->
  nodes e = Some n ->
  let e' := engine_of (toggleSwitch "drive" true e) in
  toggleSwitch "drive" true e =
    Returned tt
      (set_nodes
         (Some (set_distortion_curve
                  (makeDistortionCurve
                     (finalAmount (currentAmp e) true (preGain_gain n))) n))
         (set_state_drive true e)) /\
  state_drive e' = true /\
  option_map preGain_gain (nodes e') = Some (preGain_gain n) /\
  (forall value : R,
      option_map preGain_gain (nodes (engine_of (setParam "preGain" value e'))) =
        Some (value * drive_boost)).
Proof.
  intros Hi Hn e'. subst e'.
  rewrite (toggleSwitch_drive e n Hn Hi true). cbn [engine_of].
  split; [reflexivity | split; [reflexivity | split; [reflexivity |]]].
  intros value.
  erewrite setParam_preGain by first [reflexivity | exact Hi].
  reflexivity.
Qed.

Lemma C5_drive_toggle_flags_and_recomputes_witness :
  state_drive
    (engine_of
       (toggleSwitch "drive" true
          (set_isInitialized true (set_nodes (Some initial_nodes) constructor))))
  = true.
Proof.
  exact (proj1 (proj2
           (C5_drive_toggle_flags_and_recomputes
              (set_isInitialized true (set_nodes (Some initial_nodes) constructor))
              initial_nodes eq_refl eq_refl))).
Defined.



(** C7.  On every engine a front end can reach with the drive switch off,
    switching the drive on and then off again, with no call in between,
    gives back the engine as it was: the same flag, the same pre-gain, hence
    the same distortion amount and the same curve. *)
Theorem C7_drive_on_off_round_trip
  (decodeAudioData : AudioContext -> list Byte.byte -> option AudioBuffer)
  (e : AudioEngine) :
  reachable decodeAudioData e ->
  state_drive e = false ->
  bind (toggleSwitch "drive" true e)
       (fun _ e' => toggleSwitch "drive" false e') = Returned tt e /\
  (forall n n', nodes e = Some n ->
      nodes (engine_of (toggleSwitch "drive" true e)) = Some n' ->
      finalAmount (currentAmp e) false (preGain_gain n') =
        finalAmount (currentAmp e) (state_drive e) (preGain_gain n)).
Proof.
  intros Hr Hd.
  pose proof (reachable_in_sync decodeAudioData e Hr) as Hs.
  destruct (isInitialized e) eqn:Hi.
  - destruct (Hs Hi) as (n & Hn & Hcurve).
    rewrite (toggleSwitch_drive e n Hn Hi true). cbn [bind engine_of].
    split.
    + erewrite toggleSwitch_drive by first [reflexivity | exact Hi].
      f_equal.
      destruct e as [c ns ini amp br dr], n as [gt bg cr ct pg vg vq dc ba mi tr pr cb ma].
      cbn [nodes state_drive currentAmp preGain_gain distortion_curve] in *.
      subst ns dr dc. reflexivity.
    + intros n0 n' Hn0 Hn'. rewrite Hn in Hn0. injection Hn0 as <-.
      cbn [nodes set_nodes] in Hn'. injection Hn' as <-.
      rewrite Hd. reflexivity.
  - assert (Hoff : forall b, toggleSwitch "drive" b e = Returned tt e).
    { intros b. unfold toggleSwitch. now rewrite Hi. }
    rewrite (Hoff true). cbn [bind engine_of]. split; [apply Hoff |].
    intros n n' Hn Hn'. rewrite Hn in Hn'. injection Hn' as <-.
    now rewrite Hd.
Qed.

Lemma C7_drive_on_off_round_trip_witness :
  bind (toggleSwitch "drive" true engine_ready)
       (fun _ e' => toggleSwitch "drive" false e') = Returned tt engine_ready.
Proof.
  exact (proj1 (C7_drive_on_off_round_trip decode_reject engine_ready
                  (engine_ready_reachable decode_reject) eq_refl)).
Defined.

(** ** loadIR *)

(** C9.  When the decoder rejects the input, [loadIR] returns [false] and
    leaves the engine, and with it the buffer bound to the cabinet
    convolver, exactly as it was. *)
Theorem C9_loadIR_decode_failure
  (decodeAudioData : AudioContext -> list Byte.byte -> option AudioBuffer)
  (e : AudioEngine) (c : AudioContext) (arrayBuffer : list Byte.byte) :
  ctx e = Some c ->
  decodeAudioData c arrayBuffer = None ->
  loadIR decodeAudioData arrayBuffer e = Returned (RetBool false) e /\
  option_map cab_buffer
    (nodes (engine_of (loadIR decodeAudioData arrayBuffer e))) =
    option_map cab_buffer (nodes e).
Proof.
  intros Hc Hd. unfold loadIR. rewrite Hc, Hd. split; reflexivity.
Qed.

Lemma C9_loadIR_decode_failure_witness :
  loadIR decode_reject [Byte.x00; Byte.xff] engine_ready =
    Returned (RetBool false) engine_ready.
Proof.
  exact (proj1 (C9_loadIR_decode_failure decode_reject engine_ready
                  {| sampleRate := 48000 |} [Byte.x00; Byte.xff] eq_refl eq_refl)).
Defined.

(** ** Calls before initialization *)

(** C10.  Before initialization has completed, [setParam] and
    [toggleSwitch] return normally, for every name and value, and hand back
    the engine unchanged. *)
Theorem C10_uninitialized_calls_are_noops (e : AudioEngine) :
  isInitialized e = false ->
  (forall (param : string) (value : R), setParam param value e = Returned tt e) /\
  (forall (switchName : string) (isActive : bool),
      toggleSwitch switchName isActive e = Returned tt e).
Proof.
  intros Hi. split.
  - intros param value. unfold setParam. now rewrite Hi.
  - intros switchName isActive. unfold toggleSwitch. now rewrite Hi.
Qed.

Lemma C10_uninitialized_calls_are_noops_witness :
  setParam "preGain" 5 constructor = Returned tt constructor /\
  toggleSwitch "drive" true constructor = Returned tt constructor.
Proof.
  destruct (C10_uninitialized_calls_are_noops constructor eq_refl) as [Hp Hs].
  split; [apply Hp | apply Hs].
Defined.

(** ** The synthetic cabinet impulse response *)

Section Impulse.

Lemma typed_set_length (i : nat) (v : R) (a : list R) :
  List.length (typed_set i v a) = List.length a.
Proof.
  revert i. induction a as [| h t IH]; intros [| i]; cbn; auto.
Qed.

Lemma typed_get_set_eq (i : nat) (v : R) (a : list R) :
  (i < List.length a)%nat -> typed_get i (typed_set i v a) = v.
Proof.
  unfold typed_get. revert i.
  induction a as [| h t IH]; intros [| i] Hi; cbn in *; try lia; auto.
  apply IH. lia.
Qed.

Lemma typed_get_set_neq (i j : nat) (v : R) (a : list R) :
  i <> j -> typed_get j (typed_set i v a) = typed_get j a.
Proof.
  unfold typed_get. revert i j.
  induction a as [| h t IH]; intros [| i] [| j] Hij; cbn; auto; try lia.
Qed.

(** The filter reads the two earlier samples only from index 3 on. *)
Lemma coloration_early (model : string) (i : nat) (val a b a' b' : R) :
  (i <= 2)%nat ->
  coloration model i val a b = coloration model i val a' b'.
Proof.
  intros Hi. unfold coloration.
  destruct (Nat.ltb_spec 2 i); [lia |]. reflexivity.
Qed.

Variables (rnd : nat -> R) (model : string) (len : R).

(** The loop keeps both channels equal, never resizes them, leaves the
    samples below its start index alone and fills each index it visits
    with the filtered decayed noise of that index. *)
Lemma cab_loop_spec (count : nat) :
  forall (i : nat) (a : list R),
    let res := cab_loop rnd model len count i a a in
    fst res = snd res /\
    List.length (fst res) = List.length a /\
    (forall j, (j < i)%nat -> typed_get j (fst res) = typed_get j a) /\
    (forall j, (i <= j < i + count)%nat -> (j < List.length a)%nat ->
       typed_get j (fst res) =
         coloration model j (decayed_noise (rnd j) j len)
           (typed_get (j - 1) (fst res)) (typed_get (j - 2) (fst res))).
Proof.
  induction count as [| count IH]; intros i a res.
  - subst res. cbn [cab_loop fst snd].
    repeat split; auto. intros j Hj. lia.
  - subst res. cbn [cab_loop]. cbv zeta.
    set (val := coloration model i (decayed_noise (rnd i) i len)
                  (typed_get (i - 1) a) (typed_get (i - 2) a)).
    destruct (IH (S i) (typed_set i val a)) as (Heq & Hlen & Hlow & Hfill).
    rewrite typed_set_length in Hlen, Hfill.
    split; [exact Heq | split; [exact Hlen | split]].
    + intros j Hj. rewrite Hlow by lia. apply typed_get_set_neq. lia.
    + intros j Hj Hja.
      destruct (Nat.eq_dec j i) as [-> | Hne]; [| apply Hfill; lia].
      rewrite Hlow by lia. rewrite typed_get_set_eq by exact Hja.
      unfold val.
      destruct (Nat.le_gt_cases i 2) as [Hsmall | Hbig].
      * now apply coloration_early.
      * rewrite !Hlow by lia.
        rewrite !typed_get_set_neq by lia. reflexivity.
Qed.

End Impulse.


Lemma ir_frames_le_iterations (rate : Z) :
  (ir_frames rate <= ir_iterations rate)%nat.
Proof.
  unfold ir_frames, ir_iterations.
  assert (H : (rate / 2 <= (rate + 1) / 2)%Z) by (apply Z.div_le_mono; lia).
  lia.
Qed.



(** ** Worked examples *)

Section Examples.

(** Four frames of the Marshall cabinet: the filter averages from index 3. *)
Example synthesize_impulse_marshall_8 :
  channels (synthesize_impulse rnd_const "marshall" 8) =
    [[0.5; 0.158203125; 0.03125; 0.19140625 / 3];
     [0.5; 0.158203125; 0.03125; 0.19140625 / 3]].
Proof.
  unfold synthesize_impulse.
  change (ir_frames 8) with 4%nat. change (ir_iterations 8) with 4%nat.
  unfold ir_length, duration, rnd_const.
  cbn. unfold typed_get, decayed_noise. cbn.
  repeat (f_equal; try lra).
Qed.

(** Two frames of the Fender cabinet: the even index is attenuated. *)
Example synthesize_impulse_fender_4 :
  channels (synthesize_impulse rnd_const "fender" 4) =
    [[0.45; 0.03125]; [0.45; 0.03125]].
Proof.
  unfold synthesize_impulse.
  change (ir_frames 4) with 2%nat. change (ir_iterations 4) with 2%nat.
  unfold ir_length, duration, rnd_const.
  cbn. unfold decayed_noise. cbn.
  repeat (f_equal; try lra).
Qed.

(** The low regime is a straight line of slope 1 - 0.1 * amount. *)
Example curve_sample_low : curve_sample 0.15 0.5 = 0.4925.
Proof. unfold curve_sample. destruct (Rlt_dec 0.15 1); lra. Qed.

(** The first entry of every high-regime table is -1. *)
Example makeDistortionCurve_first :
  typed_get 0 (makeDistortionCurve 16) = curve_sample 16 (-1).
Proof.
  rewrite makeDistortionCurve_get by (unfold n_samples; lia).
  change (Z.of_nat 0) with 0%Z. now rewrite curve_x_0.
Qed.

(** A ready engine holds the curve of amount 0.15, in the low regime. *)
Example engine_ready_curve :
  option_map distortion_curve (nodes engine_ready) =
    Some (makeDistortionCurve (finalAmount "fender" false 3.0)) /\
  finalAmount "fender" false 3.0 = 0.15.
Proof.
  split.
  - now rewrite engine_ready_eq.
  - unfold finalAmount, gainFactor.
    change (baseAmount "fender" false) with 0.5.
    unfold Rmax. destruct (Rle_dec 0 ((3.0 - 2) / 8)); lra.
Qed.

(** With the drive on, a gain set and the drive switched off again, the
    pre-gain keeps the boosted value. *)
Example drive_off_keeps_boosted_gain :
  option_map preGain_gain
    (nodes (engine_of (toggleSwitch "drive" false engine_driven))) =
    Some (10 * 2.0).
Proof.
  unfold engine_driven.
  destruct engine_ready_nodes as (n & Hn & Hg).
  rewrite (toggleSwitch_drive engine_ready n Hn engine_ready_initialized).
  cbn [engine_of].
  erewrite setParam_preGain by reflexivity.
  cbn [engine_of].
  erewrite toggleSwitch_drive by reflexivity.
  reflexivity.
Qed.

End Examples.

(** * Further properties of the engine *)

(** ** Parameter mappings of setParam *)

Ltac param_cases param :=
  repeat match goal with
  | |- context [String.eqb param ?s] => destruct (String.eqb param s) eqn:?
  end.

Lemma setParam_initialized_names (e : AudioEngine) (param : string) (value : R) :
  ~ In param param_names -> setParam param value e = Returned tt e.
Proof.
intros Hout. unfold setParam.
destruct (negb (isInitialized e)); [reflexivity |].
param_cases param; try reflexivity;
  match goal with
  | H : String.eqb param _ = true |- _ =>
      apply String.eqb_eq in H; subst param; exfalso; apply Hout;
      unfold param_names; cbn [In]; tauto
  end.
Qed.

(** X1.  The single compressor knob drives two settings: for a value between
    0 and 1 the ratio 1 + 11 v runs from 1 to 12 and the threshold
    -30 - 20 v from -30 down to -50, as the comment of the source says. *)
Theorem X1_setParam_compressor_mapping (e : AudioEngine) (n : Nodes) (value : R) :
  isInitialized e = true ->
  nodes e = Some n ->
  0 <= value <= 1 ->
  setParam "compressor" value e =
    Returned tt
      (set_nodes
         (Some (set_compressor (1 + value * 11) (-30 - value * 20) n)) e) /\
  1 <= 1 + value * 11 <= 12 /\
  -50 <= -30 - value * 20 <= -30.
Proof.
intros Hi Hn Hv. split; [| lra].
unfold setParam. rewrite Hi. cbn [negb].
change (String.eqb "compressor" "gate") with false.
change (String.eqb "compressor" "compressor") with true.
cbv iota zeta. apply (with_nodes_some e n Hn).
Qed.

Lemma X1_setParam_compressor_mapping_witness :
  1 <= 1 + 0.5 * 11 <= 12 /\ -50 <= -30 - 0.5 * 20 <= -30.
Proof.
exact (proj2 (X1_setParam_compressor_mapping
         (set_isInitialized true (set_nodes (Some initial_nodes) constructor))
         initial_nodes 0.5 eq_refl eq_refl ltac:(lra))).
Defined.

(** X2.  The voice knob sets the gain of the peaking filter to 3 v and its Q
    to 1.5 + 0.2 |v|: for a value between -5 and 5 the gain lies between
    -15 and 15 dB and the Q between 1.5 and 2.5; opposite values give
    opposite gains and the same Q. *)
Theorem X2_setParam_voice_mapping (e : AudioEngine) (n : Nodes) (value : R) :
  isInitialized e = true ->
  nodes e = Some n ->
  -5 <= value <= 5 ->
  setParam "voice" value e =
    Returned tt
      (set_nodes
         (Some (set_voice (value * 3) (1.5 + Rabs value * 0.2) n)) e) /\
  -15 <= value * 3 <= 15 /\
  1.5 <= 1.5 + Rabs value * 0.2 <= 2.5 /\
  (- value) * 3 = - (value * 3) /\
  1.5 + Rabs (- value) * 0.2 = 1.5 + Rabs value * 0.2.
Proof.
intros Hi Hn Hv. split; [| split; [lra | split; [| split; [ring |]]]].
- unfold setParam. rewrite Hi. cbn [negb].
  change (String.eqb "voice" "gate") with false.
  change (String.eqb "voice" "compressor") with false.
  change (String.eqb "voice" "preGain") with false.
  change (String.eqb "voice" "voice") with true.
  cbv iota. apply (with_nodes_some e n Hn).
- pose proof (Rabs_pos value). 
  assert (Rabs value <= 5) by (apply Rabs_le; lra). lra.
- now rewrite Rabs_Ropp.
Qed.

Lemma X2_setParam_voice_mapping_witness :
  -15 <= -2 * 3 <= 15.
Proof.
exact (proj1 (proj2 (X2_setParam_voice_mapping
         (set_isInitialized true (set_nodes (Some initial_nodes) constructor))
         initial_nodes (-2) eq_refl eq_refl ltac:(lra)))).
Defined.

(** X3.  A name that is none of the parameters of [setParam], or none of the
    two switches of [toggleSwitch], is ignored without an error: the call
    returns and the engine is unchanged, initialized or not. *)
Theorem X3_unknown_names_are_ignored (e : AudioEngine) :
  (forall (param : string) (value : R),
      ~ In param param_names -> setParam param value e = Returned tt e) /\
  (forall (switchName : string) (isActive : bool),
      ~ In switchName switch_names ->
      toggleSwitch switchName isActive e = Returned tt e).
Proof.
split.
- intros param value Hout. now apply setParam_initialized_names.
- intros switchName isActive Hout. unfold toggleSwitch.
  destruct (negb (isInitialized e)); [reflexivity |].
  destruct (String.eqb switchName "bright") eqn:Hb.
  { apply String.eqb_eq in Hb. subst. exfalso. apply Hout. cbn; tauto. }
  destruct (String.eqb switchName "drive") eqn:Hd; [| reflexivity].
  apply String.eqb_eq in Hd. subst. exfalso. apply Hout. cbn; tauto.
Qed.

Lemma X3_unknown_names_are_ignored_witness :
  setParam "volume" 11 engine_ready = Returned tt engine_ready /\
  toggleSwitch "gate" true engine_ready = Returned tt engine_ready.
Proof.
destruct (X3_unknown_names_are_ignored engine_ready) as [Hp Hs].
split.
- apply Hp. cbn [In param_names]. intros H.
  repeat (destruct H as [H | H]; [discriminate H |]). exact H.
- apply Hs. cbn [In switch_names]. intros H.
  repeat (destruct H as [H | H]; [discriminate H |]). exact H.
Defined.

(** ** What setParam leaves alone, and how two calls compose *)

Lemma with_nodes_frame (f : Nodes -> Nodes) (e : AudioEngine) :
  let e' := engine_of (with_nodes f e) in
  ctx e' = ctx e /\ isInitialized e' = isInitialized e /\
  currentAmp e' = currentAmp e /\ state_drive e' = state_drive e /\
  state_bright e' = state_bright e /\
  nodes e' = option_map f (nodes e).
Proof.
unfold with_nodes. destruct (nodes e) as [n |] eqn:Hn; cbn [engine_of];
  repeat split; try reflexivity; exact Hn.
Qed.

Lemma updateDistortion_frame (e : AudioEngine) :
  let e' := engine_of (updateDistortion e) in
  ctx e' = ctx e /\ isInitialized e' = isInitialized e /\
  currentAmp e' = currentAmp e /\ state_drive e' = state_drive e /\
  state_bright e' = state_bright e /\
  option_map cab_buffer (nodes e') = option_map cab_buffer (nodes e) /\
  option_map preGain_gain (nodes e') = option_map preGain_gain (nodes e).
Proof.
unfold updateDistortion. destruct (nodes e) as [n |] eqn:Hn; cbn [engine_of];
  repeat split; try reflexivity; now rewrite Hn.
Qed.

(** X4.  Whatever the name and the value, [setParam] never touches the
    audio context, the initialization flag, the selected amp model, the
    switch flags or the cabinet buffer; and unless the name is preGain it
    leaves the pre-gain and the distortion curve as they were. *)
Theorem X4_setParam_frame (param : string) (value : R) (e : AudioEngine) :
  let e' := engine_of (setParam param value e) in
  ctx e' = ctx e /\ isInitialized e' = isInitialized e /\
  currentAmp e' = currentAmp e /\ state_drive e' = state_drive e /\
  state_bright e' = state_bright e /\
  option_map cab_buffer (nodes e') = option_map cab_buffer (nodes e) /\
  (param <> "preGain"%string ->
     option_map preGain_gain (nodes e') = option_map preGain_gain (nodes e) /\
     option_map distortion_curve (nodes e') =
       option_map distortion_curve (nodes e)).
Proof.
unfold setParam.
destruct (negb (isInitialized e)); [cbn [engine_of]; tauto |].
param_cases param; cbv zeta;
  unfold with_nodes, updateDistortion;
  destruct (nodes e) as [n |] eqn:Hn;
  cbn [bind engine_of nodes set_nodes]; rewrite ?Hn;
  cbn [bind engine_of nodes set_nodes];
  do 6 (split; [reflexivity |]);
  intros Hne;
  first [ split; reflexivity
        | match goal with
          | H : String.eqb param "preGain" = true |- _ =>
              apply String.eqb_eq in H; contradiction
          end ].
Qed.

(** X5.  Setting the same parameter twice is the same as setting it once to
    the later value: the second call overwrites all that the first wrote. *)
Theorem X5_setParam_last_write_wins (param : string) (v1 v2 : R) (e : AudioEngine) :
  setParam param v2 (engine_of (setParam param v1 e)) = setParam param v2 e.
Proof.
unfold setParam at 2.
destruct (isInitialized e) eqn:Hi; cbn [negb]; [| reflexivity].
destruct (nodes e) as [n |] eqn:Hn.
- param_cases param;
    try reflexivity;
    try (rewrite (with_nodes_some e n Hn); cbn [engine_of bind];
         unfold setParam; cbn [isInitialized set_nodes negb];
         rewrite Hi; cbn [negb];
         repeat match goal with H : String.eqb param _ = _ |- _ =>
                  rewrite H end;
         unfold with_nodes, updateDistortion;
         cbn [nodes set_nodes bind]; rewrite ?Hn;
         cbn [nodes set_nodes bind state_drive currentAmp];
         destruct e as [c ns ini amp br dr],
           n as [gt bg cr ct pg vg vq dc ba mi tr pr cb ma];
         reflexivity).
  apply String.eqb_eq in Heqb1. subst param.
  rewrite (setParam_preGain e n Hn Hi v2). cbv zeta.
  rewrite (with_nodes_some e n Hn). cbn [bind].
  erewrite updateDistortion_some by reflexivity. cbn [engine_of].
  erewrite setParam_preGain by first [reflexivity | exact Hi].
  cbv zeta.
  destruct e as [c ns ini amp br dr],
    n as [gt bg cr ct pg vg vq dc ba mi tr pr cb ma].
  reflexivity.
- assert (Hthrow : forall f, with_nodes f e = Threw e).
  { intros f. unfold with_nodes. now rewrite Hn. }
  param_cases param; try reflexivity;
    rewrite ?Hthrow; cbn [bind engine_of]; unfold setParam;
    rewrite Hi; cbn [negb];
    repeat match goal with H : String.eqb param _ = _ |- _ => rewrite H end;
    rewrite ?Hthrow; reflexivity.
Qed.

(** ** The shape of the engines a front end can reach *)

Lemma with_nodes_well_formed (f : Nodes -> Nodes) (e : AudioEngine) :
  (forall n, cab_buffer (f n) = cab_buffer n) ->
  (forall n, bright_gain (f n) = bright_gain n) ->
  well_formed e -> well_formed (engine_of (with_nodes f e)).
Proof.
intros Hc Hb Hw. unfold with_nodes.
destruct (nodes e) as [n |] eqn:Hn; cbn [engine_of]; [| exact Hw].
destruct Hw as (Hbr & Hu & Hr).
split; [exact Hbr | split].
- intros Hi. destruct (Hu Hi) as (_ & Hnone & _). congruence.
- intros Hi. destruct (Hr Hi) as (Hctx & n' & Hn' & Hcab & Hbg).
  split; [exact Hctx |]. exists (f n). rewrite Hn in Hn'. injection Hn' as <-.
  rewrite Hc, Hb. split; [reflexivity | split; assumption].
Qed.

Lemma updateDistortion_well_formed (e : AudioEngine) :
  well_formed e -> well_formed (engine_of (updateDistortion e)).
Proof.
intros Hw. unfold updateDistortion.
destruct (nodes e) as [n |] eqn:Hn; cbn [engine_of]; [| exact Hw].
destruct Hw as (Hbr & Hu & Hr).
split; [exact Hbr | split].
- intros Hi. destruct (Hu Hi) as (_ & Hnone & _). congruence.
- intros Hi. destruct (Hr Hi) as (Hctx & n' & Hn' & Hcab & Hbg).
  split; [exact Hctx |]. rewrite Hn in Hn'. injection Hn' as <-.
  eexists. split; [reflexivity |]. split; assumption.
Qed.

Lemma setParam_well_formed (param : string) (value : R) (e : AudioEngine) :
  well_formed e -> well_formed (engine_of (setParam param value e)).
Proof.
intros Hw. unfold setParam.
destruct (negb (isInitialized e)); [exact Hw |].
param_cases param; cbv zeta;
  try exact Hw;
  try (apply with_nodes_well_formed; [reflexivity | reflexivity | exact Hw]).
pose proof (with_nodes_well_formed
              (set_preGain_gain (value * (if state_drive e then 2.0 else 1.0)))
              e ltac:(reflexivity) ltac:(reflexivity) Hw) as Hw'.
destruct (with_nodes _ e) as [[] e' | e']; cbn [bind engine_of] in *.
- now apply updateDistortion_well_formed.
- exact Hw'.
Qed.

Lemma toggleSwitch_well_formed (switchName : string) (isActive : bool)
  (e : AudioEngine) :
  well_formed e -> well_formed (engine_of (toggleSwitch switchName isActive e)).
Proof.
intros Hw. unfold toggleSwitch.
destruct (isInitialized e) eqn:Hi; cbn [negb]; [| exact Hw].
destruct Hw as (Hbr & Hu & Hr).
destruct (Hr Hi) as (Hctx & n & Hn & Hcab & Hbg).
destruct (String.eqb switchName "bright").
{ rewrite (with_nodes_some e n Hn). cbn [engine_of].
  split; [exact Hbr | split; [intros H; cbn in H; congruence |]].
  intros _. split; [exact Hctx |]. eexists. split; [reflexivity |].
  split; [exact Hcab |]. cbn [bright_gain set_bright_gain].
  destruct isActive; [right | left]; reflexivity. }
destruct (String.eqb switchName "drive").
- change (nodes (set_state_drive isActive e)) with (nodes e).
  rewrite Hn. cbv zeta.
  apply updateDistortion_well_formed.
  split; [exact Hbr | split; [intros H; cbn in H; congruence |]].
  intros _. split; [exact Hctx |]. exists n.
  split; [exact Hn | split; assumption].
- cbn [engine_of]. split; [exact Hbr | split; [exact Hu | exact Hr]].
Qed.

Lemma setAmpModel_well_formed (rnd : nat -> R) (model : string) (e : AudioEngine) :
  well_formed e -> well_formed (engine_of (setAmpModel rnd model e)).
Proof.
intros Hw.
assert (Hw1 : well_formed (set_currentAmp model e)) by exact Hw.
pose proof (updateDistortion_well_formed _ Hw1) as Hw2.
unfold setAmpModel.
destruct (updateDistortion (set_currentAmp model e)) as [[] e' | e'];
  cbn [bind engine_of] in *; [| exact Hw2].
unfold setInternalCab. destruct (ctx e') as [c |] eqn:Hc; [| exact Hw2].
unfold with_nodes.
destruct (nodes e') as [n |] eqn:Hn; cbn [engine_of]; [| exact Hw2].
destruct Hw2 as (Hbr & Hu & Hr).
split; [exact Hbr | split].
- intros Hi. destruct (Hu Hi) as (_ & Hnone & _). congruence.
- intros Hi. destruct (Hr Hi) as (Hctx & n' & Hn' & _ & Hbg).
  split; [exact Hctx |]. rewrite Hn in Hn'. injection Hn' as <-.
  eexists. split; [reflexivity |]. split; [discriminate | exact Hbg].
Qed.

Lemma init_well_formed (rnd1 rnd2 : nat -> R) (e : AudioEngine) :
  well_formed e -> well_formed (engine_of (init rnd1 rnd2 e)).
Proof.
intros Hw. destruct (isInitialized e) eqn:Hi.
- unfold init. rewrite Hi. exact Hw.
- rewrite (init_uninitialized rnd1 rnd2 e Hi). cbn [engine_of].
  destruct Hw as (Hbr & _ & _).
  split; [exact Hbr | split; [intros H; discriminate H |]].
  intros _. split; [reflexivity |]. eexists. split; [reflexivity |].
  split; [discriminate | left; reflexivity].
Qed.

Lemma loadIR_well_formed
  (decodeAudioData : AudioContext -> list Byte.byte -> option AudioBuffer)
  (arrayBuffer : list Byte.byte) (e : AudioEngine) :
  well_formed e ->
  well_formed (engine_of (loadIR decodeAudioData arrayBuffer e)).
Proof.
intros Hw. unfold loadIR.
destruct (ctx e) as [c |] eqn:Hc; [| exact Hw].
destruct (decodeAudioData c arrayBuffer) as [buffer |]; [| exact Hw].
destruct (nodes e) as [n |] eqn:Hn; [| exact Hw].
cbn [engine_of]. destruct Hw as (Hbr & Hu & Hr).
split; [exact Hbr | split].
- intros Hi. destruct (Hu Hi) as (_ & Hnone & _). congruence.
- intros Hi. destruct (Hr Hi) as (Hctx & n' & Hn' & _ & Hbg).
  split; [exact Hctx |]. rewrite Hn in Hn'. injection Hn' as <-.
  eexists. split; [reflexivity |]. split; [discriminate | exact Hbg].
Qed.

Lemma reachable_well_formed
  (decodeAudioData : AudioContext -> list Byte.byte -> option AudioBuffer)
  (e : AudioEngine) :
  reachable decodeAudioData e -> well_formed e.
Proof.
induction 1 as [| c e Hr IH].
- split; [reflexivity | split; [now repeat split | intros H; discriminate H]].
- destruct c; cbn [perform].
  + now apply init_well_formed.
  + now apply setParam_well_formed.
  + now apply toggleSwitch_well_formed.
  + now apply setAmpModel_well_formed.
  + now apply loadIR_well_formed.
Qed.

(** X6.  The [bright] flag of the switch state is never written: on every
    engine a front end can reach it is still false, and the boost of the
    bright shelf is always one of the two fixed values 0 dB and 6 dB. *)
Theorem X6_bright_is_binary_and_flag_unused
  (decodeAudioData : AudioContext -> list Byte.byte -> option AudioBuffer)
  (e : AudioEngine) :
  reachable decodeAudioData e ->
  state_bright e = false /\
  (forall n, nodes e = Some n -> bright_gain n = 0 \/ bright_gain n = 6).
Proof.
intros Hr. destruct (reachable_well_formed decodeAudioData e Hr) as (Hbr & Hu & Hi).
split; [exact Hbr |]. intros n Hn.
destruct (isInitialized e) eqn:E.
- destruct (Hi eq_refl) as (_ & n' & Hn' & _ & Hbg). congruence.
- destruct (Hu eq_refl) as (_ & Hnone & _). congruence.
Qed.

Lemma X6_bright_is_binary_and_flag_unused_witness :
  state_bright (engine_of (toggleSwitch "bright" true engine_ready)) = false.
Proof.
exact (proj1 (X6_bright_is_binary_and_flag_unused decode_reject _
        (reachable_call decode_reject (Call_toggleSwitch "bright" true)
           engine_ready (engine_ready_reachable decode_reject)))).
Defined.






(** X9.  Once initialized, no call of the control surface throws for want
    of a node or a context: on every reachable initialized engine
    [toggleSwitch], [setAmpModel], [init] and [loadIR] return for all
    arguments, and [setParam] returns for every name and every value whose
    derived settings fit a 32-bit float. *)
Theorem X9_initialized_calls_return
  (decodeAudioData : AudioContext -> list Byte.byte -> option AudioBuffer)
  (e : AudioEngine) :
  reachable decodeAudioData e ->
  isInitialized e = true ->
  (forall param value, fits_float value -> returns (setParam param value e)) /\
  (forall switchName isActive, returns (toggleSwitch switchName isActive e)) /\
  (forall rnd model, returns (setAmpModel rnd model e)) /\
  (forall rnd1 rnd2, returns (init rnd1 rnd2 e)) /\
  (forall arrayBuffer, returns (loadIR decodeAudioData arrayBuffer e)).
Proof.
intros Hr Hi.
destruct (reachable_well_formed decodeAudioData e Hr) as (_ & _ & Hw).
destruct (Hw Hi) as (Hctx & n & Hn & _).
split; [| split; [| split; [| split]]].
- intros param value _. unfold setParam. rewrite Hi. cbn [negb].
  param_cases param; cbv zeta; rewrite ?(with_nodes_some e n Hn);
    exact I.
- intros switchName isActive. unfold toggleSwitch. rewrite Hi. cbn [negb].
  destruct (String.eqb switchName "bright").
  { rewrite (with_nodes_some e n Hn). exact I. }
  destruct (String.eqb switchName "drive"); [| exact I].
  change (nodes (set_state_drive isActive e)) with (nodes e).
  rewrite Hn. cbv zeta.
  erewrite updateDistortion_some by exact Hn. exact I.
- intros rnd model. unfold setAmpModel.
  erewrite updateDistortion_some by exact Hn. cbn [bind].
  erewrite setInternalCab_some by first [reflexivity | exact Hctx]. exact I.
- intros rnd1 rnd2. unfold init. rewrite Hi. exact I.
- intros arrayBuffer. unfold loadIR. rewrite Hctx.
  destruct (decodeAudioData _ arrayBuffer); [rewrite Hn |]; exact I.
Qed.

Lemma X9_initialized_calls_return_witness :
  returns (setParam "compressor" 0.5 engine_ready) /\
  returns (setAmpModel rnd_zero "marshall" engine_ready).
Proof.
destruct (X9_initialized_calls_return decode_reject engine_ready
            (engine_ready_reachable decode_reject) eq_refl)
  as (Hp & _ & Hm & _).
split.
- apply Hp. unfold fits_float, float_max. rewrite Rabs_pos_eq by lra. lra.
- apply Hm.
Defined.

(** ** The distortion amount in closed form, and the regime it selects *)

Lemma Rmax_comm_floor (g : R) : Rmax 0 ((g - 2) / 8) = (Rmax g 2 - 2) / 8.
Proof.
unfold Rmax.
destruct (Rle_dec 0 ((g - 2) / 8)), (Rle_dec g 2); lra.
Qed.

Lemma finalAmount_Rmax (amp : string) (drive : bool) (g : R) :
  finalAmount amp drive g = baseAmount amp drive * Rmax g 2 / 10.
Proof. unfold finalAmount, gainFactor. rewrite Rmax_comm_floor. lra. Qed.

(** X10.  The amount fed to curve synthesis is the base amount of the model
    times a tenth of the pre-gain, where a pre-gain below 2 counts as 2: at
    or below 2 the amount stays at a fifth of the base amount, above 2 it
    grows linearly with the gain. *)
Theorem X10_finalAmount_closed_form (amp : string) (drive : bool) (g : R) :
  finalAmount amp drive g = baseAmount amp drive * Rmax g 2 / 10 /\
  (g <= 2 -> finalAmount amp drive g = baseAmount amp drive * 0.2) /\
  (2 <= g -> finalAmount amp drive g = baseAmount amp drive * g / 10).
Proof.
rewrite finalAmount_Rmax.
split; [reflexivity | split]; intros Hg.
- rewrite Rmax_right by lra. lra.
- rewrite Rmax_left by lra. lra.
Qed.

Lemma X10_finalAmount_closed_form_witness :
  finalAmount "vox" true 1 = baseAmount "vox" true * 0.2.
Proof.
apply (proj1 (proj2 (X10_finalAmount_closed_form "vox" true 1))). lra.
Defined.

Lemma baseAmount_unknown (amp : string) (drive : bool) :
  ~ In amp amp_models -> baseAmount amp drive = 0.
Proof.
intros Hout. unfold baseAmount.
destruct (String.eqb amp "fender") eqn:Hf.
{ apply String.eqb_eq in Hf. subst. exfalso. apply Hout. cbn; tauto. }
destruct (String.eqb amp "vox") eqn:Hv.
{ apply String.eqb_eq in Hv. subst. exfalso. apply Hout. cbn; tauto. }
destruct (String.eqb amp "marshall") eqn:Hm; [| reflexivity].
apply String.eqb_eq in Hm. subst. exfalso. apply Hout. cbn; tauto.
Qed.

Lemma baseAmount_drive_on (amp : string) :
  In amp amp_models -> 8 <= baseAmount amp true.
Proof.
intros [<- | [<- | [<- | []]]].
- change (baseAmount "fender" true) with 8. lra.
- change (baseAmount "vox" true) with 15. lra.
- change (baseAmount "marshall" true) with 25. lra.
Qed.

(** X11.  Which settings saturate.  With the drive on, each of the three
    models is in the tanh regime at every pre-gain (the amount is at least
    1.6).  With the drive off the curve stays in the linear regime exactly
    while the pre-gain is below 20 for fender, below 5 for vox and below
    10/3 for marshall.  An unknown model has amount 0 at every setting. *)
Theorem X11_regime_thresholds (g : R) :
  (forall amp, In amp amp_models -> 1.6 <= finalAmount amp true g) /\
  (finalAmount "fender" false g < 1 <-> g < 20) /\
  (finalAmount "vox" false g < 1 <-> g < 5) /\
  (finalAmount "marshall" false g < 1 <-> g < 10 / 3) /\
  (forall amp drive, ~ In amp amp_models -> finalAmount amp drive g = 0).
Proof.
assert (Hmax : 2 <= Rmax g 2) by apply Rmax_r.
assert (Hcase : (g <= 2 /\ Rmax g 2 = 2) \/ (2 <= g /\ Rmax g 2 = g)).
{ destruct (Rle_dec g 2); [left | right]; split; try lra;
    [apply Rmax_right | apply Rmax_left]; lra. }
split; [| split; [| split; [| split]]].
- intros amp Hin. rewrite finalAmount_Rmax.
  pose proof (baseAmount_drive_on amp Hin). nra.
- rewrite finalAmount_Rmax. change (baseAmount "fender" false) with 0.5.
  destruct Hcase as [[? ->] | [? ->]]; lra.
- rewrite finalAmount_Rmax. change (baseAmount "vox" false) with 2.
  destruct Hcase as [[? ->] | [? ->]]; lra.
- rewrite finalAmount_Rmax. change (baseAmount "marshall" false) with 3.
  destruct Hcase as [[? ->] | [? ->]]; lra.
- intros amp drive Hout. rewrite finalAmount_Rmax, baseAmount_unknown by exact Hout.
  lra.
Qed.

Lemma X11_regime_thresholds_witness :
  1.6 <= finalAmount "marshall" true 0 /\ finalAmount "vox" false 4.5 < 1.
Proof.
destruct (X11_regime_thresholds 0) as (Hon & _).
destruct (X11_regime_thresholds 4.5) as (_ & _ & Hvox & _).
split.
- apply Hon. cbn [In amp_models]. tauto.
- apply Hvox. lra.
Defined.

(** ** The table: range, zero crossing, polarity *)

Lemma curve_x_ge_m1 (i : nat) : -1 <= curve_x (Z.of_nat i).
Proof.
unfold curve_x, n_samples.
assert (H : 0 <= IZR (Z.of_nat i)) by (apply IZR_le; lia).
lra.
Qed.

Lemma tanh_0 : tanh 0 = 0.
Proof. unfold tanh. rewrite sinh_0. unfold Rdiv. apply Rmult_0_l. Qed.

Lemma curve_sample_0 (amount : R) : curve_sample amount 0 = 0.
Proof.
unfold curve_sample. destruct (Rlt_dec amount 1); [ring |].
cbv zeta. rewrite Rmult_0_r, tanh_0. unfold Rdiv. apply Rmult_0_l.
Qed.

Lemma curve_sample_range (amount x : R) :
  0 <= amount -> -1 <= x < 1 -> -1 <= curve_sample amount x < 1.
Proof.
intros Ha Hx. unfold curve_sample.
destruct (Rlt_dec amount 1) as [Hlow | Hhigh].
- split; nra.
- cbv zeta.
  pose proof (tanh_pos (amount * 0.5) ltac:(lra)) as Hk.
  pose proof (tanh_le (- (amount * 0.5)) (amount * 0.5 * x) ltac:(nra)) as Hlo.
  pose proof (tanh_lt (amount * 0.5 * x) (amount * 0.5) ltac:(nra)) as Hhi.
  rewrite tanh_opp in Hlo.
  split.
  + apply Rmult_le_reg_r with (tanh (amount * 0.5)); [exact Hk |].
    unfold Rdiv. rewrite Rmult_assoc, Rinv_l by lra. lra.
  + apply Rmult_lt_reg_r with (tanh (amount * 0.5)); [exact Hk |].
    unfold Rdiv. rewrite Rmult_assoc, Rinv_l by lra. lra.
Qed.

(** X12.  For every amount >= 0 the table has 44100 entries and each of them
    lies between -1 and 1: the table never holds more than full scale. *)
Theorem X12_curve_range (amount : R) (i : nat) :
  0 <= amount ->
  (i < Z.to_nat n_samples)%nat ->
  List.length (makeDistortionCurve amount) = Z.to_nat 44100 /\
  -1 <= typed_get i (makeDistortionCurve amount) <= 1.
Proof.
intros Ha Hi. split; [apply makeDistortionCurve_length |].
rewrite makeDistortionCurve_get by exact Hi.
pose proof (curve_sample_range amount (curve_x (Z.of_nat i)) Ha
              (conj (curve_x_ge_m1 i) (curve_x_lt_1 i Hi))) as Hrange.
lra.
Qed.

Lemma X12_curve_range_witness :
  -1 <= typed_get 7 (makeDistortionCurve 16) <= 1.
Proof.
apply (X12_curve_range 16 7); [lra | unfold n_samples; lia].
Defined.

(** X13.  For every amount the entry of the table at index 22050, whose
    input is 0, is exactly 0; the entries before it are <= 0 and the
    entries after it are >= 0. *)
Theorem X13_curve_zero_crossing (amount : R) (i : nat) :
  (i < Z.to_nat n_samples)%nat ->
  typed_get (Z.to_nat 22050) (makeDistortionCurve amount) = 0 /\
  ((i <= Z.to_nat 22050)%nat -> typed_get i (makeDistortionCurve amount) <= 0) /\
  ((Z.to_nat 22050 <= i)%nat -> 0 <= typed_get i (makeDistortionCurve amount)).
Proof.
intros Hi.
assert (Hmid : curve_x (Z.of_nat (Z.to_nat 22050)) = 0).
{ rewrite Z2Nat.id by lia. unfold curve_x, n_samples. lra. }
assert (H0 : typed_get (Z.to_nat 22050) (makeDistortionCurve amount) = 0).
{ rewrite makeDistortionCurve_get by (unfold n_samples; lia).
  rewrite Hmid. apply curve_sample_0. }
split; [exact H0 | split]; intros Hle; rewrite <- H0;
  rewrite !makeDistortionCurve_get by (unfold n_samples in *; lia);
  apply curve_sample_le, curve_x_le; exact Hle.
Qed.

Lemma X13_curve_zero_crossing_witness :
  typed_get (Z.to_nat 22050) (makeDistortionCurve 16) = 0.
Proof.
apply (X13_curve_zero_crossing 16 0). unfold n_samples. lia.
Defined.

(** X14.  The curve of a reachable engine is never stale: once initialized,
    the table bound to the waveshaper is the one synthesized from the
    current amp model, drive flag and pre-gain, whatever sequence of calls
    led there; its amount is >= 0, so its entries lie between -1 and 1. *)
Theorem X14_reachable_curve_in_sync
  (decodeAudioData : AudioContext -> list Byte.byte -> option AudioBuffer)
  (e : AudioEngine) :
  reachable decodeAudioData e ->
  isInitialized e = true ->
  exists n, nodes e = Some n /\
    distortion_curve n =
      makeDistortionCurve
        (finalAmount (currentAmp e) (state_drive e) (preGain_gain n)) /\
    0 <= finalAmount (currentAmp e) (state_drive e) (preGain_gain n) /\
    (forall i, (i < Z.to_nat n_samples)%nat ->
       -1 <= typed_get i (distortion_curve n) <= 1).
Proof.
intros Hr Hi.
destruct (reachable_in_sync decodeAudioData e Hr Hi) as (n & Hn & Hcurve).
exists n. split; [exact Hn | split; [exact Hcurve | split]].
- apply finalAmount_nonneg.
- intros i Hlt. rewrite Hcurve, makeDistortionCurve_get by exact Hlt.
  pose proof (curve_sample_range _ (curve_x (Z.of_nat i))
                (finalAmount_nonneg (currentAmp e) (state_drive e) (preGain_gain n))
                (conj (curve_x_ge_m1 i) (curve_x_lt_1 i Hlt))) as Hrange.
  lra.
Qed.

Lemma X14_reachable_curve_in_sync_witness :
  exists n, nodes engine_driven = Some n /\
    distortion_curve n =
      makeDistortionCurve
        (finalAmount (currentAmp engine_driven) (state_drive engine_driven)
           (preGain_gain n)).
Proof.
destruct (X14_reachable_curve_in_sync decode_reject engine_driven) as (n & Hn & Hc & _).
- exact (reachable_call decode_reject (Call_setParam "preGain" 10) _
           (reachable_call decode_reject (Call_toggleSwitch "drive" true) _
              (engine_ready_reachable decode_reject))).
- reflexivity.
- exists n. split; assumption.
Defined.

(** ** The synthetic impulse response: range and decay *)

Lemma impulse_left_samples (rnd : nat -> R) (model : string) (rate : Z) :
  List.length (impulse_left rnd model rate) = ir_frames rate /\
  forall i, (i < ir_frames rate)%nat ->
    typed_get i (impulse_left rnd model rate) =
      coloration model i (decayed_noise (rnd i) i (ir_length rate))
        (typed_get (i - 1) (impulse_left rnd model rate))
        (typed_get (i - 2) (impulse_left rnd model rate)).
Proof.
unfold impulse_left, synthesize_impulse. cbv zeta. cbn [channels hd].
destruct (cab_loop_spec rnd model (ir_length rate) (ir_iterations rate) 0
            (Float32Array (ir_frames rate))) as (_ & Hlen & _ & Hfill).
unfold Float32Array in *. rewrite repeat_length in *.
split; [exact Hlen |].
intros i Hi. apply Hfill; [| exact Hi].
pose proof (ir_frames_le_iterations rate). lia.
Qed.

Lemma envelope_range (rate : Z) (i : nat) :
  (i < ir_frames rate)%nat -> 0 <= envelope i (ir_length rate) <= 1.
Proof.
intros Hi. unfold envelope, ir_length, ir_frames, duration in *.
assert (Hq : (0 < rate / 2)%Z) by lia.
assert (Hrate : (2 * (rate / 2) <= rate)%Z).
{ apply Z.mul_div_le. lia. }
assert (Hi' : (Z.of_nat i < rate / 2)%Z) by lia.
assert (HiR : INR i < IZR (rate / 2)).
{ rewrite INR_IZR_INZ. now apply IZR_lt. }
assert (HqR : IZR (2 * (rate / 2)) <= IZR rate) by now apply IZR_le.
rewrite mult_IZR in HqR.
assert (H0 : 0 <= INR i) by apply pos_INR.
assert (Hlen : 0 < IZR rate * 0.5) by lra.
assert (Hfrac : 0 <= INR i / (IZR rate * 0.5) <= 1).
{ split.
  - apply Rmult_le_pos; [exact H0 | left; now apply Rinv_0_lt_compat].
  - apply Rmult_le_reg_r with (IZR rate * 0.5); [exact Hlen |].
    unfold Rdiv. rewrite Rmult_assoc, Rinv_l by lra. lra. }
split.
- apply pow_le. lra.
- rewrite <- (pow1 4). apply pow_incr. lra.
Qed.

Lemma decayed_noise_range (r : R) (i : nat) (rate : Z) :
  0 <= r < 1 -> (i < ir_frames rate)%nat ->
  - envelope i (ir_length rate) <= decayed_noise r i (ir_length rate)
    <= envelope i (ir_length rate).
Proof.
intros Hr Hi. pose proof (envelope_range rate i Hi) as He.
unfold decayed_noise. fold (envelope i (ir_length rate)). nra.
Qed.

(** X15.  With draws of the random source in the interval from 0 to 1,
    every sample of the synthetic impulse response lies between -1 and 1,
    for every model name and every sample rate: neither the decay nor any
    of the per-model filters can push a sample beyond full scale. *)
Theorem X15_impulse_range
  (rnd : nat -> R) (model : string) (rate : Z) (i : nat) :
  (forall k, 0 <= rnd k < 1) ->
  (i < List.length (impulse_left rnd model rate))%nat ->
  -1 <= typed_get i (impulse_left rnd model rate) <= 1.
Proof.
intros Hrnd.
destruct (impulse_left_samples rnd model rate) as (Hlen & Hsample).
rewrite Hlen. clear Hlen.
induction i as [i IH] using lt_wf_ind. intros Hi.
rewrite (Hsample i Hi).
pose proof (decayed_noise_range (rnd i) i rate (Hrnd i) Hi) as Hval.
pose proof (envelope_range rate i Hi) as Henv.
unfold coloration.
destruct (String.eqb model "fender").
{ destruct (Nat.eqb (i mod 2) 0); lra. }
destruct (String.eqb model "marshall").
{ destruct (Nat.ltb_spec 2 i) as [Hbig | Hsmall]; [| lra].
  pose proof (IH (i - 1)%nat ltac:(lia) ltac:(lia)).
  pose proof (IH (i - 2)%nat ltac:(lia) ltac:(lia)).
  lra. }
destruct (String.eqb model "vox"); lra.
Qed.

Lemma X15_impulse_range_witness :
  -1 <= typed_get 3 (impulse_left rnd_const "marshall" 8) <= 1.
Proof.
apply (X15_impulse_range rnd_const "marshall" 8 3).
- intros k. unfold rnd_const. lra.
- destruct (impulse_left_samples rnd_const "marshall" 8) as (-> & _).
  change (ir_frames 8) with 4%nat. lia.
Defined.

(** X16.  For every model other than marshall a sample depends on its own
    draw only and stays inside the decay envelope: sample [i] lies between
    -(1 - i / length) ^ 4 and (1 - i / length) ^ 4.  For a name that is none
    of the three models the sample is the decayed noise itself, unfiltered. *)
Theorem X16_impulse_envelope
  (rnd : nat -> R) (model : string) (rate : Z) (i : nat) :
  (forall k, 0 <= rnd k < 1) ->
  model <> "marshall"%string ->
  (i < List.length (impulse_left rnd model rate))%nat ->
  - envelope i (ir_length rate) <= typed_get i (impulse_left rnd model rate)
    <= envelope i (ir_length rate) /\
  (~ In model amp_models ->
     typed_get i (impulse_left rnd model rate) =
       (rnd i * 2 - 1) * envelope i (ir_length rate)).
Proof.
intros Hrnd Hm.
destruct (impulse_left_samples rnd model rate) as (Hlen & Hsample).
rewrite Hlen. intros Hi. rewrite (Hsample i Hi).
pose proof (decayed_noise_range (rnd i) i rate (Hrnd i) Hi) as Hval.
pose proof (envelope_range rate i Hi) as Henv.
apply String.eqb_neq in Hm.
unfold coloration. rewrite Hm.
destruct (String.eqb model "fender") eqn:Hf.
{ split.
  - destruct (Nat.eqb (i mod 2) 0); lra.
  - intros Hout. apply String.eqb_eq in Hf. subst.
    exfalso. apply Hout. cbn; tauto. }
destruct (String.eqb model "vox") eqn:Hv.
{ split; [lra |].
  intros Hout. apply String.eqb_eq in Hv. subst.
  exfalso. apply Hout. cbn; tauto. }
split; [lra | reflexivity].
Qed.

Lemma X16_impulse_envelope_witness :
  - envelope 1 (ir_length 4) <= typed_get 1 (impulse_left rnd_const "fender" 4)
    <= envelope 1 (ir_length 4).
Proof.
apply (X16_impulse_envelope rnd_const "fender" 4 1).
- intros k. unfold rnd_const. lra.
- discriminate.
- destruct (impulse_left_samples rnd_const "fender" 4) as (-> & _).
  change (ir_frames 4) with 2%nat. lia.
Defined.

(** ** Cabinet buffers: custom impulse responses and model selection *)

(** X17.  On a reachable initialized engine an input that the decoder turns
    into a buffer the convolver takes (one, two or four channels at the
    rate of the context) is bound to the cabinet and [loadIR] returns
    [true], with the model, the flags, the pre-gain and the curve untouched;
    selecting an amp model afterwards replaces the custom buffer by the
    synthetic impulse response of that model. *)
Theorem X17_loadIR_success_then_model
  (decodeAudioData : AudioContext -> list Byte.byte -> option AudioBuffer)
  (e : AudioEngine) (arrayBuffer : list Byte.byte) (buffer : AudioBuffer)
  (rnd : nat -> R) (model : string) :
  reachable decodeAudioData e ->
  isInitialized e = true ->
  decodeAudioData {| sampleRate := 48000 |} arrayBuffer = Some buffer ->
  In (numberOfChannels buffer) [1; 2; 4]%nat ->
  buffer_sampleRate buffer = 48000%Z ->
  exists n,
    nodes e = Some n /\
    loadIR decodeAudioData arrayBuffer e =
      Returned (RetBool true)
        (set_nodes (Some (set_cab_buffer (Some buffer) n)) e) /\
    option_map cab_buffer
      (nodes (engine_of
                (setAmpModel rnd model
                   (engine_of (loadIR decodeAudioData arrayBuffer e))))) =
      Some (Some (synthesize_impulse rnd model 48000)).
Proof.
intros Hr Hi Hd _ _.
destruct (reachable_well_formed decodeAudioData e Hr) as (_ & _ & Hw).
destruct (Hw Hi) as (Hctx & n & Hn & _).
exists n. split; [exact Hn |].
assert (Hload : loadIR decodeAudioData arrayBuffer e =
                  Returned (RetBool true)
                    (set_nodes (Some (set_cab_buffer (Some buffer) n)) e)).
{ unfold loadIR. now rewrite Hctx, Hd, Hn. }
split; [exact Hload |].
rewrite Hload. cbn [engine_of]. unfold setAmpModel.
erewrite updateDistortion_some by reflexivity. cbn [bind].
erewrite setInternalCab_some by first [reflexivity | exact Hctx].
reflexivity.
Qed.

(** X18.  On a reachable initialized engine [setAmpModel] records the model,
    recomputes the curve from the unchanged drive flag and pre-gain and
    binds the synthetic impulse response of the model at 48000 Hz; selecting
    the same model again with the same draws changes nothing. *)
Theorem X18_setAmpModel_effect_and_idempotence
  (decodeAudioData : AudioContext -> list Byte.byte -> option AudioBuffer)
  (e : AudioEngine) (rnd : nat -> R) (model : string) :
  reachable decodeAudioData e ->
  isInitialized e = true ->
  exists n,
    nodes e = Some n /\
    setAmpModel rnd model e =
      Returned tt
        (set_nodes
           (Some (set_cab_buffer
                    (Some (synthesize_impulse rnd model 48000))
                    (set_distortion_curve
                       (makeDistortionCurve
                          (finalAmount model (state_drive e) (preGain_gain n)))
                       n)))
           (set_currentAmp model e)) /\
    setAmpModel rnd model (engine_of (setAmpModel rnd model e)) =
      setAmpModel rnd model e.
Proof.
intros Hr Hi.
destruct (reachable_well_formed decodeAudioData e Hr) as (_ & _ & Hw).
destruct (Hw Hi) as (Hctx & n & Hn & _).
exists n. split; [exact Hn |].
assert (Hset : forall e0 n0,
          nodes e0 = Some n0 -> ctx e0 = Some {| sampleRate := 48000 |} ->
          setAmpModel rnd model e0 =
            Returned tt
              (set_nodes
                 (Some (set_cab_buffer
                          (Some (synthesize_impulse rnd model 48000))
                          (set_distortion_curve
                             (makeDistortionCurve
                                (finalAmount model (state_drive e0)
                                   (preGain_gain n0))) n0)))
                 (set_currentAmp model e0))).
{ intros e0 n0 Hn0 Hc0. unfold setAmpModel.
  erewrite updateDistortion_some by exact Hn0. cbn [bind].
  erewrite setInternalCab_some by first [reflexivity | exact Hc0].
  reflexivity. }
rewrite (Hset e n Hn Hctx). split; [reflexivity |].
cbn [engine_of].
erewrite Hset by first [reflexivity | exact Hctx].
destruct e as [c ns ini amp br dr],
  n as [gt bg cr ct pg vg vq dc ba mi tr pr cb ma].
reflexivity.
Qed.

(** ** The drive switch and the gain knob *)

(** X19.  The order of the drive switch and the gain knob matters.  Starting
    with the drive off: switching it on and then setting the gain to v
    leaves the pre-gain at 2 v; setting the gain first and switching
    afterwards leaves it at v; and after on, set v, off the drive flag is
    off again but the pre-gain is still 2 v, twice what setting v with the
    drive off gives. *)
Theorem X19_drive_and_gain_order
  (e : AudioEngine) (n : Nodes) (v : R) :
  isInitialized e = true ->
  nodes e = Some n ->
  state_drive e = false ->
  let on_then_set :=
    engine_of (setParam "preGain" v (engine_of (toggleSwitch "drive" true e))) in
  let set_then_on :=
    engine_of (toggleSwitch "drive" true (engine_of (setParam "preGain" v e))) in
  let on_set_off := engine_of (toggleSwitch "drive" false on_then_set) in
  option_map preGain_gain (nodes on_then_set) = Some (v * 2.0) /\
  option_map preGain_gain (nodes set_then_on) = Some (v * 1.0) /\
  state_drive on_set_off = false /\
  option_map preGain_gain (nodes on_set_off) = Some (v * 2.0) /\
  option_map distortion_curve (nodes on_set_off) =
    Some (makeDistortionCurve (finalAmount (currentAmp e) false (v * 2.0))).
Proof.
intros Hi Hn Hd on_then_set set_then_on on_set_off.
subst on_set_off on_then_set set_then_on.
rewrite (toggleSwitch_drive e n Hn Hi true). cbn [engine_of].
match goal with |- context [setParam "preGain" v (set_nodes (Some ?n1) ?e0)] =>
  rewrite (setParam_preGain (set_nodes (Some n1) e0) n1 eq_refl Hi v)
end.
cbv zeta. cbn [engine_of state_drive set_nodes set_state_drive currentAmp].
match goal with |- context [toggleSwitch "drive" false (set_nodes (Some ?n2) ?e0)] =>
  rewrite (toggleSwitch_drive (set_nodes (Some n2) e0) n2 eq_refl Hi false)
end.
rewrite (setParam_preGain e n Hn Hi v). cbv zeta. cbn [engine_of].
match goal with |- context [toggleSwitch "drive" true (set_nodes (Some ?n3) ?e0)] =>
  rewrite (toggleSwitch_drive (set_nodes (Some n3) e0) n3 eq_refl Hi true)
end.
rewrite Hd.
cbn [engine_of nodes set_nodes set_state_drive state_drive currentAmp option_map
     preGain_gain distortion_curve set_distortion_curve set_preGain_gain].
split; [reflexivity | split; [reflexivity | split; [reflexivity |
  split; [reflexivity | reflexivity]]]].
Qed.

Lemma X19_drive_and_gain_order_witness :
  option_map preGain_gain
    (nodes (engine_of
              (toggleSwitch "drive" false
                 (engine_of
                    (setParam "preGain" 4
                       (engine_of
                          (toggleSwitch "drive" true
                             (set_isInitialized true
                                (set_nodes (Some initial_nodes) constructor))))))))) =
    Some (4 * 2.0).
Proof.
exact (proj1 (proj2 (proj2 (proj2
         (X19_drive_and_gain_order
            (set_isInitialized true (set_nodes (Some initial_nodes) constructor))
            initial_nodes 4 eq_refl eq_refl eq_refl))))).
Defined.

Lemma X17_loadIR_success_then_model_witness :
  exists n,
    nodes engine_ready = Some n /\
    loadIR decode_accept [Byte.x52; Byte.x49] engine_ready =
      Returned (RetBool true)
        (set_nodes (Some (set_cab_buffer (Some buffer_click) n)) engine_ready) /\
    option_map cab_buffer
      (nodes (engine_of
                (setAmpModel rnd_zero "vox"
                   (engine_of (loadIR decode_accept [Byte.x52; Byte.x49]
                                 engine_ready))))) =
      Some (Some (synthesize_impulse rnd_zero "vox" 48000)).
Proof.
exact (X17_loadIR_success_then_model decode_accept engine_ready
         [Byte.x52; Byte.x49] buffer_click rnd_zero "vox"
         (engine_ready_reachable decode_accept) eq_refl eq_refl
         (or_intror (or_introl eq_refl)) eq_refl).
Defined.

Lemma X18_setAmpModel_effect_and_idempotence_witness :
  exists n,
    nodes engine_ready = Some n /\
    setAmpModel rnd_zero "vox" engine_ready =
      Returned tt
        (set_nodes
           (Some (set_cab_buffer
                    (Some (synthesize_impulse rnd_zero "vox" 48000))
                    (set_distortion_curve
                       (makeDistortionCurve
                          (finalAmount "vox" (state_drive engine_ready)
                             (preGain_gain n)))
                       n)))
           (set_currentAmp "vox" engine_ready)) /\
    setAmpModel rnd_zero "vox" (engine_of (setAmpModel rnd_zero "vox" engine_ready)) =
      setAmpModel rnd_zero "vox" engine_ready.
Proof.
exact (X18_setAmpModel_effect_and_idempotence decode_reject engine_ready
         rnd_zero "vox" (engine_ready_reachable decode_reject) eq_refl).
Defined.

(** * Properties of the controller *)

(** ** Dragging a knob *)

Lemma clamp_range (x min max : R) :
  min <= max -> min <= Rmin (Rmax x min) max <= max.
Proof.
intros H. unfold Rmin, Rmax.
destruct (Rle_dec x min); destruct (Rle_dec _ max); lra.
Qed.

Lemma clamp_high (x min max : R) :
  min <= max -> max <= x -> Rmin (Rmax x min) max = max.
Proof.
intros H Hx. rewrite Rmax_left by lra. apply Rmin_right. lra.
Qed.

Lemma clamp_low (x min max : R) :
  min <= max -> x <= min -> Rmin (Rmax x min) max = min.
Proof.
intros H Hx. rewrite Rmax_right by lra. apply Rmin_left. lra.
Qed.

Lemma handleDrag_dragging (clientY : R) (ui : UIController) (k : nat) :
  isDragging ui = true -> currentKnob ui = Some k ->
  handleDrag clientY ui =
    let knob := knobs ui k in
    let newValue := drag_value clientY knob ui in
    {| audio := engine_of (setParam (knob_param knob) newValue (audio ui));
       knobs := fun j =>
         if Nat.eqb j k then
           updateKnobVisual (set_knob_value newValue knob) newValue
             (knob_min knob) (knob_max knob)
         else knobs ui j;
       isDragging := isDragging ui; currentKnob := currentKnob ui;
       startY := startY ui; startValue := startValue ui |}.
Proof.
intros Hd Hk. unfold handleDrag. rewrite Hd, Hk. reflexivity.
Qed.

(** X20.  While a knob is dragged, the value written to the knob and sent to
    the engine is clamped to the range of the knob: if min <= max it lies
    between them wherever the pointer is; the engine receives exactly the
    value the knob shows, under the parameter name of the knob; and no
    other knob changes. *)
Theorem X20_handleDrag_clamps
  (clientY : R) (ui : UIController) (k : nat) :
  isDragging ui = true ->
  currentKnob ui = Some k ->
  knob_min (knobs ui k) <= knob_max (knobs ui k) ->
  let ui' := handleDrag clientY ui in
  knob_min (knobs ui k) <= knob_value (knobs ui' k) <= knob_max (knobs ui k) /\
  audio ui' =
    engine_of (setParam (knob_param (knobs ui k)) (knob_value (knobs ui' k))
                 (audio ui)) /\
  (forall j, j <> k -> knobs ui' j = knobs ui j).
Proof.
intros Hd Hk Hrange ui'. subst ui'.
rewrite (handleDrag_dragging clientY ui k Hd Hk). cbv zeta.
cbn [knobs audio]. rewrite Nat.eqb_refl.
cbn [knob_value updateKnobVisual set_knob_value].
split; [| split].
- unfold drag_value. cbv zeta. now apply clamp_range.
- reflexivity.
- intros j Hj. apply Nat.eqb_neq in Hj. now rewrite Hj.
Qed.

Lemma X20_handleDrag_clamps_witness :
  knob_min knob_master
    <= knob_value (knobs (handleDrag (-1000) (startDrag 0 0 ui_ready)) 0%nat)
    <= knob_max knob_master.
Proof.
exact (proj1 (X20_handleDrag_clamps (-1000) (startDrag 0 0 ui_ready) 0
                eq_refl eq_refl ltac:(change (0 <= 10); lra))).
Defined.

(** X21.  Driven through the drag handler, the master gain of an initialized
    engine always ends between 0.2 min and 0.2 max of the master knob: the
    range check that [setParam] does not make is made by its caller. *)
Theorem X21_dragged_master_gain_is_bounded
  (clientY : R) (ui : UIController) (k : nat) (n : Nodes) :
  isDragging ui = true ->
  currentKnob ui = Some k ->
  knob_param (knobs ui k) = "master"%string ->
  knob_min (knobs ui k) <= knob_max (knobs ui k) ->
  isInitialized (audio ui) = true ->
  nodes (audio ui) = Some n ->
  exists g,
    option_map master_gain (nodes (audio (handleDrag clientY ui))) = Some g /\
    knob_min (knobs ui k) * 0.2 <= g <= knob_max (knobs ui k) * 0.2.
Proof.
intros Hd Hk Hp Hrange Hi Hn.
rewrite (handleDrag_dragging clientY ui k Hd Hk). cbv zeta. cbn [audio].
rewrite Hp, (setParam_master (audio ui) n Hn Hi).
cbn [engine_of nodes set_nodes option_map master_gain set_master_gain].
eexists. split; [reflexivity |].
pose proof (clamp_range
              (startValue ui +
               (startY ui - clientY) *
               ((knob_max (knobs ui k) - knob_min (knobs ui k)) / 200))
              _ _ Hrange) as Hc.
unfold drag_value. cbv zeta. lra.
Qed.

Lemma X21_dragged_master_gain_is_bounded_witness :
  exists g,
    option_map master_gain
      (nodes (audio (handleDrag (-1000) (startDrag 0 0 ui_ready)))) = Some g /\
    knob_min knob_master * 0.2 <= g <= knob_max knob_master * 0.2.
Proof.
destruct engine_ready_nodes as (n & Hn & _).
exact (X21_dragged_master_gain_is_bounded (-1000) (startDrag 0 0 ui_ready) 0 n
         eq_refl eq_refl eq_refl ltac:(change (0 <= 10); lra)
         engine_ready_initialized Hn).
Defined.

(** X22.  The rotation of a knob: for min < max and a value between them the
    angle lies between -135 and 135 degrees, it is -135 at min and 135 at
    max, and it grows with the value. *)
Theorem X22_knob_rotation_range (value value' min max : R) :
  min < max ->
  min <= value <= max ->
  -135 <= knob_rotation value min max <= 135 /\
  knob_rotation min min max = -135 /\
  knob_rotation max min max = 135 /\
  (value <= value' -> knob_rotation value min max <= knob_rotation value' min max).
Proof.
intros Hlt Hv. unfold knob_rotation. cbv zeta.
assert (Hinv : 0 < / (max - min)) by (apply Rinv_0_lt_compat; lra).
assert (Hfrac : 0 <= (value - min) / (max - min) <= 1).
{ split.
  - apply Rmult_le_pos; lra.
  - apply Rmult_le_reg_r with (max - min); [lra |].
    unfold Rdiv. rewrite Rmult_assoc, Rinv_l by lra. lra. }
split; [lra | split; [| split]].
- unfold Rdiv. rewrite Rminus_diag. lra.
- unfold Rdiv. rewrite Rinv_r by lra. lra.
- intros Hle.
  assert ((value - min) / (max - min) <= (value' - min) / (max - min)).
  { unfold Rdiv. apply Rmult_le_compat_r; lra. }
  lra.
Qed.

Lemma X22_knob_rotation_range_witness :
  -135 <= knob_rotation 5 0 10 <= 135.
Proof.
apply (X22_knob_rotation_range 5 5 0 10); lra.
Defined.

(** X23.  Outside a drag the pointer moves nothing: [handleDrag] returns the
    controller unchanged when no drag is in progress, in particular after
    [endDrag]; and a drag of 200 pixels upwards from any value inside the
    range takes the knob to max, 200 pixels downwards to min. *)
Theorem X23_drag_lifecycle
  (clientY : R) (ui : UIController) (k : nat) :
  knob_min (knobs ui k) <= knob_value (knobs ui k) <= knob_max (knobs ui k) ->
  handleDrag clientY (endDrag ui) = endDrag ui /\
  (isDragging ui = false -> handleDrag clientY ui = ui) /\
  knob_value (knobs (handleDrag (clientY - 200) (startDrag clientY k ui)) k) =
    knob_max (knobs ui k) /\
  knob_value (knobs (handleDrag (clientY + 200) (startDrag clientY k ui)) k) =
    knob_min (knobs ui k).
Proof.
intros Hv. split; [reflexivity | split; [| split]].
- intros Hd. unfold handleDrag. now rewrite Hd.
- rewrite (handleDrag_dragging _ (startDrag clientY k ui) k eq_refl eq_refl).
  cbv zeta. cbn [knobs startDrag]. rewrite Nat.eqb_refl.
  cbn [knob_value updateKnobVisual set_knob_value].
  unfold drag_value. cbn [startY startValue startDrag]. cbv zeta.
  replace ((clientY - (clientY - 200)) *
           ((knob_max (knobs ui k) - knob_min (knobs ui k)) / 200))
    with (knob_max (knobs ui k) - knob_min (knobs ui k)) by field.
  apply clamp_high; lra.
- rewrite (handleDrag_dragging _ (startDrag clientY k ui) k eq_refl eq_refl).
  cbv zeta. cbn [knobs startDrag]. rewrite Nat.eqb_refl.
  cbn [knob_value updateKnobVisual set_knob_value].
  unfold drag_value. cbn [startY startValue startDrag]. cbv zeta.
  replace ((clientY - (clientY + 200)) *
           ((knob_max (knobs ui k) - knob_min (knobs ui k)) / 200))
    with (- (knob_max (knobs ui k) - knob_min (knobs ui k))) by field.
  apply clamp_low; lra.
Qed.

Lemma X23_drag_lifecycle_witness :
  knob_value (knobs (handleDrag (300 - 200) (startDrag 300 0 ui_ready)) 0%nat) =
    knob_max (knobs ui_ready 0%nat).
Proof.
exact (proj1 (proj2 (proj2 (X23_drag_lifecycle 300 ui_ready 0
         ltac:(change (0 <= 5 <= 10); lra))))).
Defined.

(** ** The level meter *)

Lemma byte_value_range (b : Byte.byte) : 0 <= byte_value b <= 255.
Proof.
unfold byte_value. pose proof (Strings.Byte.to_N_bounded b) as Hb.
split; apply IZR_le; lia.
Qed.

Lemma meter_sum_acc (dataArray : list Byte.byte) (acc : R) :
  acc <= fold_left (fun sum b => sum + byte_value b) dataArray acc
      <= acc + 255 * INR (List.length dataArray).
Proof.
revert acc. induction dataArray as [| b t IH]; intros acc.
- cbn [fold_left List.length INR]. lra.
- cbn [fold_left]. change (List.length (b :: t)) with (S (List.length t)).
  rewrite S_INR. pose proof (byte_value_range b). pose proof (IH (acc + byte_value b)).
  lra.
Qed.

(** X24.  For a non-empty block of analyser bytes the meter shows a level
    between 0 and 100; it is pinned at 100 exactly when the bytes average 32
    or more, and below that it is 3.125 times the average. *)
Theorem X24_meter_height_range (dataArray : list Byte.byte) :
  dataArray <> [] ->
  0 <= meter_height dataArray <= 100 /\
  (meter_height dataArray = 100 <->
     32 * INR (List.length dataArray) <= meter_sum dataArray) /\
  (meter_sum dataArray < 32 * INR (List.length dataArray) ->
     meter_height dataArray =
       meter_sum dataArray / INR (List.length dataArray) * 3.125).
Proof.
intros Hne.
assert (Hlen : 0 < INR (List.length dataArray)).
{ destruct dataArray as [| b t]; [congruence |].
  change (List.length (b :: t)) with (S (List.length t)).
  rewrite S_INR. pose proof (pos_INR (List.length t)). lra. }
pose proof (meter_sum_acc dataArray 0) as Hsum. fold (meter_sum dataArray) in Hsum.
unfold meter_height. cbv zeta.
set (s := meter_sum dataArray) in *. set (len := INR (List.length dataArray)) in *.
assert (Hinv : 0 < / len) by now apply Rinv_0_lt_compat.
assert (Havg : s / len * len = s).
{ unfold Rdiv. rewrite Rmult_assoc, Rinv_l by lra. lra. }
assert (Havg0 : 0 <= s / len).
{ apply Rmult_le_pos; lra. }
unfold Rmin.
destruct (Rle_dec 100 (s / len / 32 * 100)) as [Hsat | Hlin].
- split; [lra | split].
  + split; [intros _ | reflexivity].
    assert (32 <= s / len) by lra. nra.
  + intros Hlt. assert (s / len < 32) by nra. lra.
- split; [lra | split].
  + split; [lra |]. intros Hge. assert (32 <= s / len) by nra. lra.
  + intros _. lra.
Qed.

Lemma X24_meter_height_range_witness :
  0 <= meter_height [Byte.x40; Byte.x00] <= 100.
Proof.
apply (X24_meter_height_range [Byte.x40; Byte.x00]). discriminate.
Defined.

(** ** Edge cases of model selection and of the dragged gain *)

(** X25.  A model name that is none of fender, vox and marshall is accepted
    without an error on a reachable initialized engine: it is recorded, the
    amount is 0, so the table is the identity on its positions (entry [i] is
    the input [i * 2 / 44100 - 1] itself), and the impulse response bound to
    the cabinet is the one synthesized for that name. *)
Theorem X25_unknown_model_is_pass_through
  (decodeAudioData : AudioContext -> list Byte.byte -> option AudioBuffer)
  (e : AudioEngine) (rnd : nat -> R) (model : string) :
  reachable decodeAudioData e ->
  isInitialized e = true ->
  ~ In model amp_models ->
  let e' := engine_of (setAmpModel rnd model e) in
  returns (setAmpModel rnd model e) /\
  currentAmp e' = model /\
  option_map distortion_curve (nodes e') = Some (makeDistortionCurve 0) /\
  (forall i, (i < Z.to_nat n_samples)%nat ->
     typed_get i (makeDistortionCurve 0) = curve_x (Z.of_nat i)) /\
  option_map cab_buffer (nodes e') =
    Some (Some (synthesize_impulse rnd model 48000)).
Proof.
intros Hr Hi Hout e'. subst e'.
destruct (reachable_well_formed decodeAudioData e Hr) as (_ & _ & Hw).
destruct (Hw Hi) as (Hctx & n & Hn & _).
unfold setAmpModel.
erewrite updateDistortion_some by exact Hn. cbn [bind].
erewrite setInternalCab_some by first [reflexivity | exact Hctx].
cbn [engine_of returns nodes set_nodes option_map currentAmp set_currentAmp
     distortion_curve cab_buffer set_cab_buffer set_distortion_curve state_drive].
assert (Hamount : finalAmount model (state_drive e) (preGain_gain n) = 0).
{ rewrite finalAmount_Rmax, baseAmount_unknown by exact Hout. lra. }
rewrite Hamount.
split; [exact I | split; [reflexivity | split; [reflexivity | split; [| reflexivity]]]].
intros i Hlt. rewrite makeDistortionCurve_get by exact Hlt.
unfold curve_sample. destruct (Rlt_dec 0 1); lra.
Qed.

Lemma X25_unknown_model_is_pass_through_witness :
  currentAmp (engine_of (setAmpModel rnd_zero "mesa" engine_ready)) = "mesa"%string.
Proof.
refine (proj1 (proj2 (X25_unknown_model_is_pass_through decode_reject engine_ready
                 rnd_zero "mesa" (engine_ready_reachable decode_reject) eq_refl _))).
cbn [In amp_models]. intros H.
repeat (destruct H as [H | H]; [discriminate H |]). exact H.
Defined.

(** X26.  Driven through the drag handler, the pre-gain of an initialized
    engine ends between min and max of the gain knob with the drive off, and
    between 2 min and 2 max with the drive on; the curve is recomputed from
    that pre-gain in the same step. *)
Theorem X26_dragged_preGain_is_bounded
  (clientY : R) (ui : UIController) (k : nat) (n : Nodes) :
  isDragging ui = true ->
  currentKnob ui = Some k ->
  knob_param (knobs ui k) = "preGain"%string ->
  knob_min (knobs ui k) <= knob_max (knobs ui k) ->
  isInitialized (audio ui) = true ->
  nodes (audio ui) = Some n ->
  let boost := if state_drive (audio ui) then 2.0 else 1.0 in
  exists g,
    option_map preGain_gain (nodes (audio (handleDrag clientY ui))) = Some g /\
    knob_min (knobs ui k) * boost <= g <= knob_max (knobs ui k) * boost /\
    option_map distortion_curve (nodes (audio (handleDrag clientY ui))) =
      Some (makeDistortionCurve
              (finalAmount (currentAmp (audio ui)) (state_drive (audio ui)) g)).
Proof.
intros Hd Hk Hp Hrange Hi Hn boost.
rewrite (handleDrag_dragging clientY ui k Hd Hk). cbv zeta. cbn [audio].
rewrite Hp, (setParam_preGain (audio ui) n Hn Hi). cbv zeta.
cbn [engine_of nodes set_nodes option_map preGain_gain distortion_curve
     set_distortion_curve set_preGain_gain].
eexists. split; [reflexivity | split; [| reflexivity]].
pose proof (clamp_range
              (startValue ui +
               (startY ui - clientY) *
               ((knob_max (knobs ui k) - knob_min (knobs ui k)) / 200))
              _ _ Hrange) as Hc.
unfold drag_value. cbv zeta. subst boost.
destruct (state_drive (audio ui)); lra.
Qed.

Lemma X26_dragged_preGain_is_bounded_witness :
  exists g,
    option_map preGain_gain
      (nodes (audio (handleDrag 40 (startDrag 0 0 ui_gain)))) = Some g /\
    0 * 1.0 <= g <= 10 * 1.0.
Proof.
destruct engine_ready_nodes as (n & Hn & _).
destruct (X26_dragged_preGain_is_bounded 40 (startDrag 0 0 ui_gain) 0 n
            eq_refl eq_refl eq_refl ltac:(change (0 <= 10); lra)
            engine_ready_initialized Hn) as (g & Hg & Hb & _).
exists g. split; [exact Hg |].
change (state_drive (audio _)) with (state_drive engine_ready) in Hb.
rewrite engine_ready_drive in Hb. exact Hb.
Defined.
